(** * Synthesis comparison utility (synthesis/synth-util.py)

    A shallow embedding of the metric extractors, the three flow runners,
    the comparator and the batch driver of [synth-util.py], with the
    properties the specification states about them.

    Modelling conventions.
    - Python [int] is [Z]; Python [float] (wall-clock seconds and their
      quotients) is modelled by the rationals [Q], so rounding is not
      represented; [None] is [None] of an [option].
    - Text is [string]: the characters of a decoded file, restricted to the
      code points below 256.
    - A [dict] whose keys vary at run time is a [gmap string _]; a dict whose
      iteration order is observable (the [*_all] mappings) is an association
      list in insertion order.
    - The outside world (tools, file system, clock) is an explicit oracle
      record; an operation that can raise returns a [fallible] value. *)

From Stdlib Require Import ZArith QArith List String Ascii Bool Lia.
From Stdlib Require Import Sorted Permutation.
From Stdlib Require OrderedTypeEx.
From stdpp Require Import base gmap strings list fin_maps.

Close Scope Q_scope.
Local Open Scope string_scope.
Local Open Scope list_scope.

(* ===================================================================== *)
(** * Characters and the [re] fragment used by the extractors            *)
(* ===================================================================== *)

Module Re.

(** [\n] *)
Definition newline : ascii := ascii_of_nat 10.

(** [\s] on [str] patterns: [str.isspace] below code point 256. *)
Definition is_space (a : ascii) : bool :=
  let n := nat_of_ascii a in
  ((9 <=? n) && (n <=? 13) || (28 <=? n) && (n <=? 32)
   || (n =? 133) || (n =? 160))%nat.

(** [\d]: below code point 256 only the ASCII digits are decimal digits. *)
Definition is_digit (a : ascii) : bool :=
  let n := nat_of_ascii a in ((48 <=? n) && (n <=? 57))%nat.

(** [.] without [re.DOTALL]: anything but a newline. *)
Definition is_dot (a : ascii) : bool := negb (Ascii.eqb a newline).

(** A literal character. *)
Definition is_chr (c : ascii) (a : ascii) : bool := Ascii.eqb a c.

(** Quantifiers: [x], [x*], [x*?], [x+]. *)
Inductive quant : Type := Once | Star | LazyStar | Plus.

(** The patterns of this program are sequences of quantified character
    classes, some of them wrapped in a capturing group, and the anchor [^]. *)
Inductive item : Type :=
| Atom (cls : ascii -> bool) (q : quant) (captured : bool)
| Bol.

Definition pattern : Type := list item.

(** A run of literal characters. *)
Fixpoint lit (w : string) : pattern :=
  match w with
  | EmptyString => []
  | String c w' => Atom (is_chr c) Once false :: lit w'
  end.

(** [^] under [re.MULTILINE]: start of the text or just after a newline. *)
Definition at_bol (prev : option ascii) : bool :=
  match prev with
  | None => true
  | Some a => Ascii.eqb a newline
  end.

(** Result of matching the rest of a pattern: characters consumed and the
    captured groups, in order. *)
Definition mres : Type := (nat * list string)%type.

Definition cont : Type := option ascii -> string -> option mres.

(** Greedy repetition: take as many characters as possible, give back one at
    a time while the continuation fails.  Returns the number of characters
    the repetition kept together with the continuation's result. *)
Fixpoint greedy_rep (c : ascii -> bool) (k : cont) (prev : option ascii)
    (s : string) : option (nat * mres) :=
  match s with
  | String a s' =>
      if c a then
        match greedy_rep c k (Some a) s' with
        | Some (i, r) => Some (S i, r)
        | None => option_map (pair O) (k prev s)
        end
      else option_map (pair O) (k prev s)
  | EmptyString => option_map (pair O) (k prev s)
  end.

(** Lazy repetition: try the continuation first, take one more character
    only when it fails. *)
Fixpoint lazy_rep (c : ascii -> bool) (k : cont) (prev : option ascii)
    (s : string) : option (nat * mres) :=
  match k prev s with
  | Some r => Some (O, r)
  | None =>
      match s with
      | String a s' =>
          if c a then
            match lazy_rep c k (Some a) s' with
            | Some (i, r) => Some (S i, r)
            | None => None
            end
          else None
      | EmptyString => None
      end
  end.

(** The first [n] characters of [s]. *)
Fixpoint take_str (n : nat) (s : string) : string :=
  match n, s with
  | S n', String a s' => String a (take_str n' s')
  | _, _ => EmptyString
  end.

(** Put together what one item consumed and what the rest consumed. *)
Definition close (captured : bool) (s : string) (r : option (nat * mres))
  : option mres :=
  match r with
  | Some (i, (n, gs)) =>
      Some ((i + n)%nat, if captured then take_str i s :: gs else gs)
  | None => None
  end.

Definition bump (r : option (nat * mres)) : option (nat * mres) :=
  match r with
  | Some (i, m) => Some (S i, m)
  | None => None
  end.

(** Backtracking match of a pattern at the current position; [prev] is the
    character just before it.  The alternatives are explored in the order
    of a backtracking engine, so the first success is the match [re]
    reports. *)
Fixpoint match_here (p : pattern) : cont :=
  match p with
  | [] => fun _ _ => Some (O, [])
  | Bol :: p' =>
      fun prev s => if at_bol prev then match_here p' prev s else None
  | Atom c q cap :: p' =>
      let k := match_here p' in
      fun prev s =>
        close cap s
          match q with
          | Once =>
              match s with
              | String a s' =>
                  if c a then bump (option_map (pair O) (k (Some a) s'))
                  else None
              | EmptyString => None
              end
          | Star => greedy_rep c k prev s
          | LazyStar => lazy_rep c k prev s
          | Plus =>
              match s with
              | String a s' =>
                  if c a then bump (greedy_rep c k (Some a) s') else None
              | EmptyString => None
              end
          end
  end.

(** What [re.findall] lists for one match: the group when the pattern has
    one, the whole match when it has none. *)
Definition found (s : string) (m : mres) : string :=
  match snd m with
  | g :: _ => g
  | [] => take_str (fst m) s
  end.

(** [re.findall]: scan left to right, matches do not overlap.  [skip] is the
    number of characters of the previous match still to step over.  (The
    patterns here never match the empty string.) *)
Fixpoint findall_from (p : pattern) (prev : option ascii) (skip : nat)
    (s : string) : list string :=
  match skip with
  | S k =>
      match s with
      | String a s' => findall_from p (Some a) k s'
      | EmptyString => []
      end
  | O =>
      match match_here p prev s with
      | Some m =>
          found s m ::
            match s with
            | String a s' => findall_from p (Some a) (Nat.pred (fst m)) s'
            | EmptyString => []
            end
      | None =>
          match s with
          | String a s' => findall_from p (Some a) O s'
          | EmptyString => []
          end
      end
  end.

Definition findall (p : pattern) (s : string) : list string :=
  findall_from p None O s.

(** [int(text)] for a run of decimal digits. *)
Definition digit_val (a : ascii) : Z := Z.of_nat (nat_of_ascii a) - 48.

Fixpoint int_acc (acc : Z) (s : string) : Z :=
  match s with
  | EmptyString => acc
  | String a s' => int_acc (acc * 10 + digit_val a) s'
  end.

Definition int (s : string) : Z := int_acc 0 s.

(** The statistics line of the ABC log:
    [r'ABC: netlist\s*:\s*.*?\s+lev\s*=\s*(\d+)']. *)
Definition abc_levels_pattern : pattern :=
  lit "ABC: netlist"
  ++ [Atom is_space Star false; Atom (is_chr ":") Once false;
      Atom is_space Star false; Atom is_dot LazyStar false;
      Atom is_space Plus false]
  ++ lit "lev"
  ++ [Atom is_space Star false; Atom (is_chr "=") Once false;
      Atom is_space Star false; Atom is_digit Plus true].

(** A LUT of the BLIF netlist: [r'^\.names'] with [re.MULTILINE]. *)
Definition names_pattern : pattern := Bol :: lit ".names".

End Re.

(* ===================================================================== *)
(** * Results of one flow and the outside world                          *)
(* ===================================================================== *)

(** [class SynthesisResults]; the initial field values are those of
    [__init__]. *)
Record SynthesisResults : Type := mkResults {
  timing_levels : option Z;
  lut_count : option Z;
  runtime : option Q;
  success : bool;
  error_message : option string
}.

Definition new_results : SynthesisResults :=
  {| timing_levels := None; lut_count := None; runtime := None;
     success := false; error_message := None |}.

Definition set_timing_levels (v : option Z) (r : SynthesisResults) :=
  {| timing_levels := v; lut_count := lut_count r; runtime := runtime r;
     success := success r; error_message := error_message r |}.

Definition set_lut_count (v : option Z) (r : SynthesisResults) :=
  {| timing_levels := timing_levels r; lut_count := v; runtime := runtime r;
     success := success r; error_message := error_message r |}.

Definition set_runtime (v : option Q) (r : SynthesisResults) :=
  {| timing_levels := timing_levels r; lut_count := lut_count r; runtime := v;
     success := success r; error_message := error_message r |}.

Definition set_success (v : bool) (r : SynthesisResults) :=
  {| timing_levels := timing_levels r; lut_count := lut_count r;
     runtime := runtime r; success := v; error_message := error_message r |}.

Definition set_error_message (v : option string) (r : SynthesisResults) :=
  {| timing_levels := timing_levels r; lut_count := lut_count r;
     runtime := runtime r; success := success r; error_message := v |}.

(** An operation of the outside world either yields a value or raises an
    exception, kept as its message. *)
Inductive fallible (A : Type) : Type :=
| Ok (a : A)
| Fault (e : string).

Arguments Ok {A} a.
Arguments Fault {A} e.

(** A text file as [open(f, 'r').read()] finds it. *)
Inductive file_state : Type :=
| Unreadable
| Content (text : string).

(** What an entry holds under the key ['level']: the key may be missing,
    and a value that is there is an integer or [null]. *)
Inductive level_value : Type :=
| NoLevel
| NullLevel
| Level (z : Z).

(** The longest-path report of circt-synth as [json.load] returns it: a list
    of path reports, each with an optional ['timing_levels'] list whose
    entries have the keys ['level'], ['percentage'] and ['count'].  The
    last two are read with [.get], for which a missing key and [null] are
    the same. *)
Record level_entry : Type := mkLevel {
  level : level_value;
  percentage : option Z;
  count : option Z
}.

Record path_report : Type := mkReport {
  report_timing_levels : option (list level_entry)
}.

Inductive json_state : Type :=
| JsonUnreadable
| Json (data : list path_report).

(** The external tools the flows start. *)
Inductive tool : Type := CirctVerilog | CirctSynth | CirctTranslate | Yosys.

(** What [subprocess.run] does with a command. *)
Inductive proc_outcome : Type :=
| Exited (returncode : Z) (stdout stderr : string)
| NotFound (e : string)
| OtherError (e : string).

(** The world one flow runs in.  [time_time n] is the [n]-th reading of
    [time.time()], counted from 0; the file fields describe the files as the tools left
    them.  Console output is assumed not to raise. *)
Record World : Type := mkWorld {
  time_time : nat -> Q;
  subprocess_run : tool -> proc_outcome;
  create_script : fallible string;
  write_log : fallible unit;
  log_exists : fallible bool;
  log_readable : bool;
  blif_exists : fallible bool;
  blif_content : file_state;
  json_exists : fallible bool;
  json_content : json_state;
  unlink_script : fallible unit
}.

(* ===================================================================== *)
(** * Metric extractors                                                  *)
(* ===================================================================== *)

(** [level['level'] for level in levels_data]: a missing key raises
    [KeyError]; [null] is read as [None]. *)
Fixpoint all_levels (l : list level_entry) : option (list (option Z)) :=
  match l with
  | [] => Some []
  | e :: l' =>
      match level e, all_levels l' with
      | Level v, Some vs => Some (Some v :: vs)
      | NullLevel, Some vs => Some (None :: vs)
      | _, _ => None
      end
  end.

(** [max] of a non-empty sequence, [m] being the greatest item so far:
    every further item is compared with it, and a comparison in which
    [None] takes part raises [TypeError].  A single item is returned
    without any comparison. *)
Fixpoint max_from (m : option Z) (l : list (option Z))
  : option (option Z) :=
  match l with
  | [] => Some m
  | x :: l' =>
      match m, x with
      | Some a, Some b => max_from (Some (Z.max a b)) l'
      | _, _ => None
      end
  end.

(** The loop looking for the 100% bucket. *)
Fixpoint count_at_100 (l : list level_entry) : option Z :=
  match l with
  | [] => None
  | e :: l' =>
      match percentage e with
      | Some 100%Z => count e
      | _ => count_at_100 l'
      end
  end.

Definition _parse_circt_json (json_file : json_state) : option Z * option Z :=
  match json_file with
  | JsonUnreadable => (None, None)
  | Json data =>
      match data with
      | d0 :: _ =>
          match report_timing_levels d0 with
          | Some levels_data =>
              match levels_data with
              | [] => (None, None)
              | _ :: _ =>
                  match all_levels levels_data with
                  | Some (v :: vs) =>
                      match max_from v vs with
                      | Some timing_levels =>
                          (timing_levels, count_at_100 levels_data)
                      | None => (None, None)
                      end
                  | _ => (None, None)
                  end
              end
          | None => (None, None)
          end
      | [] => (None, None)
      end
  end.

Definition _parse_yosys_abc_levels (log_file : file_state) : option Z :=
  match log_file with
  | Unreadable => None
  | Content content =>
      let matches := Re.findall Re.abc_levels_pattern content in
      match last matches with
      | Some m => Some (Re.int m)
      | None => None
      end
  end.

Definition _count_luts_in_blif (blif_file : file_state) : option Z :=
  match blif_file with
  | Unreadable => None
  | Content content =>
      let lut_count :=
        Z.of_nat (length (Re.findall Re.names_pattern content)) in
      if (0 <? lut_count)%Z then Some lut_count else None
  end.

(* ===================================================================== *)
(** * Flow runners                                                       *)
(* ===================================================================== *)

Definition run_command (o : proc_outcome) : Z * string * string :=
  match o with
  | Exited returncode stdout stderr => (returncode, stdout, stderr)
  | NotFound e => ((-1)%Z, "", "Command not found: " +:+ e)
  | OtherError e => ((-1)%Z, "", "Error running command: " +:+ e)
  end.

(** The body of a runner's [try] block mutates [results], reads the clock
    and ends in one of three ways: it falls through, it executes
    [return results], or an exception escapes to the handler.  The state
    is the number of clock readings taken so far together with
    [results]. *)
Inductive ending (A : Type) : Type :=
| Next (a : A)
| Returned
| Raised (e : string).

Arguments Next {A} a.
Arguments Returned {A}.
Arguments Raised {A} e.

Definition Run (A : Type) : Type :=
  nat * SynthesisResults -> ending A * (nat * SynthesisResults).

Definition ret {A} (a : A) : Run A := fun s => (Next a, s).

Definition bind {A B} (m : Run A) (f : A -> Run B) : Run B :=
  fun s =>
    match m s with
    | (Next a, s') => f a s'
    | (Returned, s') => (Returned, s')
    | (Raised e, s') => (Raised e, s')
    end.

#[global] Instance run_ret : MRet Run := @ret.
#[global] Instance run_bind : MBind Run := fun A B f m => bind m f.

(** [return results] *)
Definition return_results {A} : Run A := fun s => (Returned, s).

(** An assignment to a field of [results]. *)
Definition assign (f : SynthesisResults -> SynthesisResults) : Run unit :=
  fun s => (Next tt, (fst s, f (snd s))).

(** A call into the outside world. *)
Definition io {A} (o : fallible A) : Run A :=
  fun s =>
    match o with
    | Ok a => (Next a, s)
    | Fault e => (Raised e, s)
    end.

(** [time.time()]: the next reading of the clock. *)
Definition now (w : World) : Run Q :=
  fun s => (Next (time_time w (fst s)), (S (fst s), snd s)).

Definition when (b : bool) (m : Run unit) : Run unit :=
  if b then m else ret tt.

(** [start_time = time.time(); try: body except Exception as e: ...;
    return results].  The handler reads the clock again: this is the
    second reading when the body raised before its own reading, and the
    third when it raised after it. *)
Definition try_flow (w : World) (label : string) (body : Run unit)
  : SynthesisResults :=
  let start_time := time_time w 0 in
  match body (1%nat, new_results) with
  | (Raised e, (readings, results)) =>
      set_runtime (Some (time_time w readings - start_time)%Q)
        (set_error_message (Some (label +:+ e)) results)
  | (_, (_, results)) => results
  end.

(** One stage: run the tool and leave the flow when its exit status is not
    zero. *)
Definition stage (w : World) (t : tool) (failed : string)
  : Run (string * string) :=
  (let '(returncode, stdout, stderr) := run_command (subprocess_run w t) in
   if negb (returncode =? 0)%Z then
     assign (set_error_message (Some (failed +:+ stderr))) ;; return_results
   else ret (stdout, stderr)).

(** What the runner writes to its log file. *)
Definition log_text (stdout stderr : string) : string :=
  stdout +:+
  (if negb (String.eqb stderr "")
   then String Re.newline "--- STDERR ---" +:+ String Re.newline stderr
   else "").

Definition read_back (w : World) (written : string) : file_state :=
  if log_readable w then Content written else Unreadable.

(** The part shared by the Yosys flow and the hybrid flow after Yosys has
    run: save the log, check the exit status, extract the metrics, remove
    the script. *)
Definition yosys_tail (w : World) (failed : string) : Run unit :=
  (let '(returncode, stdout, stderr) := run_command (subprocess_run w Yosys) in
   io (write_log w) ;;
   when (negb (returncode =? 0)%Z)
     (assign (set_error_message (Some (failed +:+ stderr))) ;;
      return_results) ;;
   has_log ← io (log_exists w);
   when has_log
     (assign (set_timing_levels
        (_parse_yosys_abc_levels (read_back w (log_text stdout stderr))))) ;;
   has_blif ← io (blif_exists w);
   when has_blif
     (assign (set_lut_count (_count_luts_in_blif (blif_content w)))) ;;
   end_time ← now w;
   assign (set_runtime (Some (end_time - time_time w 0)%Q)) ;;
   assign (set_success true) ;;
   io (unlink_script w)).

Definition run_circt_synthesis (w : World) : SynthesisResults :=
  try_flow w "CIRCT synthesis error: "
    (stage w CirctVerilog "circt-verilog failed: " ;;
     stage w CirctSynth "circt-synth failed: " ;;
     has_json ← io (json_exists w);
     when has_json
       (let '(levels, luts) := _parse_circt_json (json_content w) in
        assign (set_timing_levels levels) ;;
        assign (set_lut_count luts)) ;;
     end_time ← now w;
     assign (set_runtime (Some (end_time - time_time w 0)%Q)) ;;
     assign (set_success true)).

Definition run_yosys_synthesis (w : World) : SynthesisResults :=
  try_flow w "Yosys synthesis error: "
    (io (create_script w) ;;
     yosys_tail w "Yosys failed: ").

Definition run_hybrid_synthesis (w : World) : SynthesisResults :=
  try_flow w "Hybrid synthesis error: "
    (stage w CirctVerilog "circt-verilog failed: " ;;
     stage w CirctSynth "circt-synth failed: " ;;
     stage w CirctTranslate "circt-translate AIGER export failed: " ;;
     io (create_script w) ;;
     yosys_tail w "Yosys LUT mapping failed: ").

(* ===================================================================== *)
(** * Comparator                                                         *)
(* ===================================================================== *)

#[global] Instance fallible_ret : MRet fallible := @Ok.
#[global] Instance fallible_bind : MBind fallible :=
  fun A B f m => match m with Ok a => f a | Fault e => Fault e end.

(** The values stored in the ['analysis'] dictionary. *)
Inductive value : Type :=
| VStr (s : string)
| VInt (z : Z)
| VFloat (q : Q)
| VIntMap (m : list (string * Z))
| VFloatMap (m : list (string * Q)).

Definition unable : string := "Unable to compare".

(** [<] on floats. *)
Definition Qltb (x y : Q) : bool := negb (Qle_bool y x).

Section Ranking.
Context {V : Type}.
Variable ltb : V -> V -> bool.

(** [list.sort(key=lambda x: x[1])] is a stable sort that compares keys
    with [<] only.  The result of a stable sort is determined by the
    input, so it is modelled by the stable insertion sort: an entry goes
    in front of the first entry whose key is not smaller than its own. *)
Fixpoint insert_sorted (x : string * V) (l : list (string * V))
  : list (string * V) :=
  match l with
  | [] => [x]
  | y :: l' =>
      if ltb (snd y) (snd x) then y :: insert_sorted x l' else x :: l
  end.

Fixpoint sort_by_value (l : list (string * V)) : list (string * V) :=
  match l with
  | [] => []
  | x :: l' => insert_sorted x (sort_by_value l')
  end.

(** [d[k] = v] on an insertion-ordered dict. *)
Fixpoint dict_set (k : string) (v : V) (d : list (string * V))
  : list (string * V) :=
  match d with
  | [] => [(k, v)]
  | (k', v') :: d' =>
      if String.eqb k' k then (k', v) :: d' else (k', v') :: dict_set k v d'
  end.

(** [{name: v for name, v in entries}] *)
Definition dict_of_pairs (entries : list (string * V)) : list (string * V) :=
  fold_left (fun d e => dict_set (fst e) (snd e) d) entries [].

(** [[(name, r.metric) for name, r in flows if r.metric is not None]] *)
Fixpoint present (metric : SynthesisResults -> option V)
    (flows : list (string * SynthesisResults)) : list (string * V) :=
  match flows with
  | [] => []
  | (name, result) :: flows' =>
      match metric result with
      | Some v => (name, v) :: present metric flows'
      | None => present metric flows'
      end
  end.
End Ranking.

Record Comparison : Type := mkComparison {
  circt : SynthesisResults;
  yosys : SynthesisResults;
  hybrid : option SynthesisResults;
  analysis : gmap string value
}.

(** The successful flows, in the order the code appends them. *)
Definition successful_flows (circt_results yosys_results : SynthesisResults)
    (hybrid_results : option SynthesisResults)
  : list (string * SynthesisResults) :=
  (if success circt_results then [("CIRCT", circt_results)] else [])
  ++ (if success yosys_results then [("Yosys+ABC", yosys_results)] else [])
  ++ match hybrid_results with
     | Some h => if success h then [("CIRCT+Yosys", h)] else []
     | None => []
     end.

(** The timing block and the area block have the same shape. *)
Definition compare_int_metric (winner_key all_key improvement_key : string)
    (entries : list (string * Z)) (a : gmap string value)
  : fallible (gmap string value) :=
  if (2 <=? length entries)%nat then
    match sort_by_value Z.ltb entries with
    | best :: rest =>
        let a := <[winner_key := VStr (fst best)]> a in
        let a := <[all_key :=
                    VIntMap (dict_of_pairs (sort_by_value Z.ltb entries))]> a in
        let improvement :=
          match rest with
          | second :: _ => (snd second - snd best)%Z
          | [] => 0%Z
          end in
        Ok (<[improvement_key := VInt improvement]> a)
    | [] => Fault "list index out of range"
    end
  else Ok (<[winner_key := VStr unable]> a).

Definition compare_runtime (entries : list (string * Q))
    (a : gmap string value) : fallible (gmap string value) :=
  if (2 <=? length entries)%nat then
    match sort_by_value Qltb entries with
    | fastest :: rest =>
        let a := <["runtime_winner" := VStr (fst fastest)]> a in
        let a := <["runtimes_all" :=
                    VFloatMap (dict_of_pairs (sort_by_value Qltb entries))]> a in
        match rest with
        | second :: _ =>
            if Qeq_bool (snd fastest) 0
            then Fault "float division by zero"
            else Ok (<["speedup" := VFloat (snd second / snd fastest)%Q]> a)
        | [] => Ok (<["speedup" := VFloat 1%Q]> a)
        end
    | [] => Fault "list index out of range"
    end
  else Ok a.

Definition compare_results (circt_results yosys_results : SynthesisResults)
    (hybrid_results : option SynthesisResults) : fallible Comparison :=
  let comparison := mkComparison circt_results yosys_results hybrid_results in
  let flows := successful_flows circt_results yosys_results hybrid_results in
  if (length flows <? 2)%nat then
    Ok (comparison
          (<["area_winner" := VStr unable]>
             (<["timing_winner" := VStr unable]> ∅)))
  else
    a ← compare_int_metric "timing_winner" "timing_levels_all"
          "timing_improvement" (present timing_levels flows) ∅;
    a ← compare_int_metric "area_winner" "lut_counts_all"
          "area_improvement" (present lut_count flows) a;
    a ← compare_runtime (present runtime flows) a;
    Ok (comparison a).

(* ===================================================================== *)
(** * Batch driver                                                       *)
(* ===================================================================== *)

(** [Path(p).name] for a path without a trailing separator: the text after
    the last ['/']. *)
Fixpoint has_slash (s : string) : bool :=
  match s with
  | EmptyString => false
  | String a s' => Ascii.eqb a "/" || has_slash s'
  end.

Fixpoint path_name (s : string) : string :=
  match s with
  | EmptyString => EmptyString
  | String a s' =>
      if has_slash s' then path_name s'
      else if Ascii.eqb a "/" then s' else s
  end.

(** What processing one file meets: creating the per-file comparator (its
    output directories), the three flows, and printing and saving the
    per-file report. *)
Record FileRun : Type := mkFileRun {
  make_comparator : fallible unit;
  circt_world : World;
  yosys_world : World;
  hybrid_world : World;
  save_report : fallible unit
}.

Definition run_comparison (f : FileRun) : fallible Comparison :=
  let circt_results := run_circt_synthesis (circt_world f) in
  let yosys_results := run_yosys_synthesis (yosys_world f) in
  let hybrid_results := run_hybrid_synthesis (hybrid_world f) in
  comparison ← compare_results circt_results yosys_results
                  (Some hybrid_results);
  save_report f;;
  Ok comparison.

(** An entry of [batch_results['results']]. *)
Inductive file_record : Type :=
| Compared (file_path : string) (circt_part yosys_part : SynthesisResults)
    (analysis_part : gmap string value)
| Errored (file_path : string) (error : string).

Record Summary : Type := mkSummary {
  successful_comparisons : Z;
  failed_comparisons : Z;
  circt_wins_timing : Z;
  yosys_wins_timing : Z;
  ties_timing : Z;
  circt_wins_area : Z;
  yosys_wins_area : Z;
  ties_area : Z;
  total_circt_time : Q;
  total_yosys_time : Q
}.

Record BatchResults : Type := mkBatch {
  input_path : string;
  total_files : Z;
  results : gmap string file_record;
  summary : Summary
}.

Definition new_summary : Summary :=
  mkSummary 0 0 0 0 0 0 0 0 0%Q 0%Q.

(** [total += r.runtime] guarded by [if r.runtime:]. *)
Definition add_runtime (total : Q) (r : SynthesisResults) : Q :=
  match runtime r with
  | Some t => if Qeq_bool t 0 then total else (total + t)%Q
  | None => total
  end.

Definition count_failure (s : Summary) : Summary :=
  mkSummary (successful_comparisons s) (failed_comparisons s + 1)
    (circt_wins_timing s) (yosys_wins_timing s) (ties_timing s)
    (circt_wins_area s) (yosys_wins_area s) (ties_area s)
    (total_circt_time s) (total_yosys_time s).

(** [analysis.get(key, 'Unable to compare')] *)
Definition get_winner (a : gmap string value) (key : string) : value :=
  default (VStr unable) (a !! key).

(** [winner == name] *)
Definition is_name (winner : value) (name : string) : bool :=
  match winner with
  | VStr s => String.eqb s name
  | _ => false
  end.

(** The [if/elif/elif] chain on the timing winner. *)
Definition tally_timing (timing_winner : value) (s : Summary) : Summary :=
  if is_name timing_winner "CIRCT" then
    mkSummary (successful_comparisons s) (failed_comparisons s)
      (circt_wins_timing s + 1) (yosys_wins_timing s) (ties_timing s)
      (circt_wins_area s) (yosys_wins_area s) (ties_area s)
      (total_circt_time s) (total_yosys_time s)
  else if is_name timing_winner "Yosys+ABC" then
    mkSummary (successful_comparisons s) (failed_comparisons s)
      (circt_wins_timing s) (yosys_wins_timing s + 1) (ties_timing s)
      (circt_wins_area s) (yosys_wins_area s) (ties_area s)
      (total_circt_time s) (total_yosys_time s)
  else if is_name timing_winner "Tie" then
    mkSummary (successful_comparisons s) (failed_comparisons s)
      (circt_wins_timing s) (yosys_wins_timing s) (ties_timing s + 1)
      (circt_wins_area s) (yosys_wins_area s) (ties_area s)
      (total_circt_time s) (total_yosys_time s)
  else s.

(** The [if/elif/elif] chain on the area winner. *)
Definition tally_area (area_winner : value) (s : Summary) : Summary :=
  if is_name area_winner "CIRCT" then
    mkSummary (successful_comparisons s) (failed_comparisons s)
      (circt_wins_timing s) (yosys_wins_timing s) (ties_timing s)
      (circt_wins_area s + 1) (yosys_wins_area s) (ties_area s)
      (total_circt_time s) (total_yosys_time s)
  else if is_name area_winner "Yosys+ABC" then
    mkSummary (successful_comparisons s) (failed_comparisons s)
      (circt_wins_timing s) (yosys_wins_timing s) (ties_timing s)
      (circt_wins_area s) (yosys_wins_area s + 1) (ties_area s)
      (total_circt_time s) (total_yosys_time s)
  else if is_name area_winner "Tie" then
    mkSummary (successful_comparisons s) (failed_comparisons s)
      (circt_wins_timing s) (yosys_wins_timing s) (ties_timing s)
      (circt_wins_area s) (yosys_wins_area s) (ties_area s + 1)
      (total_circt_time s) (total_yosys_time s)
  else s.

Definition count_comparison (s : Summary) : Summary :=
  mkSummary (successful_comparisons s + 1) (failed_comparisons s)
    (circt_wins_timing s) (yosys_wins_timing s) (ties_timing s)
    (circt_wins_area s) (yosys_wins_area s) (ties_area s)
    (total_circt_time s) (total_yosys_time s).

Definition add_times (c : Comparison) (s : Summary) : Summary :=
  mkSummary (successful_comparisons s) (failed_comparisons s)
    (circt_wins_timing s) (yosys_wins_timing s) (ties_timing s)
    (circt_wins_area s) (yosys_wins_area s) (ties_area s)
    (add_runtime (total_circt_time s) (circt c))
    (add_runtime (total_yosys_time s) (yosys c)).

(** The summary update for a file whose CIRCT and Yosys flows both
    succeeded. *)
Definition count_success (c : Comparison) (s : Summary) : Summary :=
  let s := count_comparison s in
  let s := tally_timing (get_winner (analysis c) "timing_winner") s in
  let s := tally_area (get_winner (analysis c) "area_winner") s in
  add_times c s.

(** One iteration of the loop over the files: the [try] block and its
    handler. *)
Definition process_file (b : BatchResults) (item : string * FileRun)
  : BatchResults :=
  let '(verilog_file, f) := item in
  let file_name := path_name verilog_file in
  match make_comparator f;; run_comparison f with
  | Ok comparison =>
      mkBatch (input_path b) (total_files b)
        (<[file_name := Compared verilog_file (circt comparison)
                          (yosys comparison) (analysis comparison)]>
           (results b))
        (if success (circt comparison) && success (yosys comparison)
         then count_success comparison (summary b)
         else count_failure (summary b))
  | Fault e =>
      mkBatch (input_path b) (total_files b)
        (<[file_name := Errored verilog_file e]> (results b))
        (count_failure (summary b))
  end.

(** [run_batch_comparison], given the files [find_verilog_files] found
    (each with the world its processing meets) and whether printing and
    saving the batch report goes through. *)
Definition run_batch_comparison (path : string)
    (verilog_files : list (string * FileRun)) (save_batch : fallible unit)
  : fallible BatchResults :=
  match verilog_files with
  | [] => Fault ("No Verilog files found in " +:+ path)
  | _ :: _ =>
      let batch_results :=
        fold_left process_file verilog_files
          (mkBatch path (Z.of_nat (length verilog_files)) ∅ new_summary) in
      save_batch;;
      Ok batch_results
  end.

(* ===================================================================== *)
(** * Reference definitions used in the statements                       *)
(* ===================================================================== *)

(** [content.split('\n')]: the lines of a text. *)
Fixpoint split_lines (s : string) : list string :=
  match s with
  | EmptyString => [EmptyString]
  | String a s' =>
      if Ascii.eqb a Re.newline then EmptyString :: split_lines s'
      else match split_lines s' with
           | l :: ls => String a l :: ls
           | [] => [String a EmptyString]
           end
  end.

(** A line that defines a LUT. *)
Definition is_names_line (l : string) : bool := String.prefix ".names" l.

(** The number of lines of a netlist that start with [.names]. *)
Definition names_lines (content : string) : nat :=
  length (List.filter is_names_line (split_lines content)).

(** A word without a newline. *)
Fixpoint no_newline (w : string) : bool :=
  match w with
  | EmptyString => true
  | String c w' => negb (Ascii.eqb c Re.newline) && no_newline w'
  end.

(** Occurrences of [w] at the start of a line, counted character by
    character; [bol] tells whether the text starts a line. *)
Fixpoint count_bol (w : string) (bol : bool) (s : string) : nat :=
  match s with
  | EmptyString => O
  | String a s' =>
      ((if bol && String.prefix w s then 1 else 0)
       + count_bol w (Ascii.eqb a Re.newline) s')%nat
  end.

(** The first [k] characters exist and none is a newline. *)
Fixpoint plain_run (k : nat) (s : string) : bool :=
  match k, s with
  | O, _ => true
  | S k', String a s' => negb (Ascii.eqb a Re.newline) && plain_run k' s'
  | S _, EmptyString => false
  end.

(** The first line of a text. *)
Definition first_line (s : string) : string := hd EmptyString (split_lines s).


(** Ascending by value. *)
Definition ascending {V} (ltb : V -> V -> bool) : list (string * V) -> Prop :=
  StronglySorted (fun a b => ltb (snd b) (snd a) = false).

(** The fixed order in which the comparator looks at the strategies. *)
Definition priority : list string := ["CIRCT"; "Yosys+ABC"; "CIRCT+Yosys"].

(** What the specification requires of every flow result: a flow that did
    not succeed reports no metric, a flow that succeeded reports no
    failure reason. *)
Definition flow_invariant (r : SynthesisResults) : Prop :=
  (success r = false -> timing_levels r = None /\ lut_count r = None)
  /\ (success r = true -> error_message r = None).

(* ===================================================================== *)
(** * Sample inputs                                                      *)
(* ===================================================================== *)

Definition nl : string := String Re.newline EmptyString.

(** A Yosys log in which ABC prints its statistics three times, with
    levels 12, 9 and 15. *)
Definition abc_log : string :=
  "ABC: + if -K 6" +:+ nl +:+
  "ABC: netlist                       : i/o =    8/    8  lat =    0  nd =    31  edge =    120  lev = 12"
  +:+ nl +:+
  "ABC: netlist                       : i/o =    8/    8  lat =    0  nd =    24  edge =     96  lev = 9"
  +:+ nl +:+
  "ABC: + print_stats" +:+ nl +:+
  "ABC: netlist                       : i/o =    8/    8  lat =    0  nd =    27  edge =    101  lev = 15"
  +:+ nl.

(** A BLIF netlist with exactly three [.names] lines. *)
Definition three_luts_blif : string :=
  ".model top" +:+ nl +:+
  ".inputs a b c" +:+ nl +:+
  ".outputs y" +:+ nl +:+
  ".names a b n1" +:+ nl +:+ "11 1" +:+ nl +:+
  ".names b c n2" +:+ nl +:+ "1- 1" +:+ nl +:+ "-1 1" +:+ nl +:+
  ".names n1 n2 y" +:+ nl +:+ "10 1" +:+ nl +:+
  ".end" +:+ nl.

(** A BLIF netlist without any [.names] line. *)
Definition no_luts_blif : string :=
  ".model top" +:+ nl +:+ ".inputs a" +:+ nl +:+ ".outputs a" +:+ nl
  +:+ ".end" +:+ nl.

(** Every tool exits with status 0; Yosys prints [abc_log]. *)
Definition all_pass (t : tool) : proc_outcome :=
  match t with
  | Yosys => Exited 0 abc_log ""
  | _ => Exited 0 "" ""
  end.

(** circt-verilog rejects the input. *)
Definition verilog_fails (t : tool) : proc_outcome :=
  match t with
  | CirctVerilog => Exited 1 "" "error: expected ';'"
  | _ => all_pass t
  end.

(** Yosys exits with status 1. *)
Definition yosys_fails (t : tool) : proc_outcome :=
  match t with
  | Yosys => Exited 1 "" "ERROR: syntax error"
  | _ => all_pass t
  end.

(** A world in which the clock reads 100 s, 102 s, ..., every file is in
    place and readable; the tools and the removal of the temporary script
    are left open. *)
Definition world_of (tools : tool -> proc_outcome) (unlink : fallible unit)
  : World :=
  {| time_time := fun n => inject_Z (100 + 2 * Z.of_nat n);
     subprocess_run := tools;
     create_script := Ok "/tmp/tmpk3v9.ys";
     write_log := Ok tt;
     log_exists := Ok true;
     log_readable := true;
     blif_exists := Ok true;
     blif_content := Content three_luts_blif;
     json_exists := Ok true;
     json_content :=
       Json [mkReport (Some [mkLevel (Level 4) (Some 50%Z) (Some 2%Z);
                             mkLevel (Level 7) (Some 100%Z) (Some 5%Z)])];
     unlink_script := unlink |}.

(** Everything goes well. *)
Definition good_world : World := world_of all_pass (Ok tt).

(** Everything goes well, but the temporary script is gone when the flow
    wants to remove it. *)
Definition script_gone_world : World :=
  world_of all_pass
    (Fault "[Errno 2] No such file or directory: '/tmp/tmpk3v9.ys'").

(** A flow result that succeeded with the given metrics. *)
Definition succeeded (levels luts : option Z) (seconds : Q)
  : SynthesisResults :=
  mkResults levels luts (Some seconds) true None.

(** A flow result of a flow whose first stage exited with status 1. *)
Definition failed_flow : SynthesisResults :=
  mkResults None None None false (Some "circt-verilog failed: error").

(** Three files of a batch: the second cannot be processed because its
    output directory cannot be created. *)
Definition good_run : FileRun :=
  mkFileRun (Ok tt) good_world good_world good_world (Ok tt).

Definition faulty_run : FileRun :=
  mkFileRun (Fault "[Errno 13] Permission denied: 'build/b'")
    good_world good_world good_world (Ok tt).

(** A file for which the CIRCT flow and the hybrid flow go through and
    Yosys, run on the Verilog source, exits with status 1: no exception
    is raised, the Yosys flow just fails. *)
Definition circt_only_run : FileRun :=
  mkFileRun (Ok tt) good_world (world_of yosys_fails (Ok tt)) good_world
    (Ok tt).

Definition three_files : list (string * FileRun) :=
  [("bench/a.sv", good_run); ("bench/b.sv", faulty_run);
   ("bench/c.sv", good_run)].

(** The comparison the comparator returns for three flow results (an empty
    analysis stands for a comparator that raised). *)
Definition comparison_of (c y : SynthesisResults)
    (h : option SynthesisResults) : Comparison :=
  match compare_results c y h with
  | Ok cmp => cmp
  | Fault _ => mkComparison c y h ∅
  end.

(** Two strategies with the same depth, cell count and runtime. *)
Definition tie_circt : SynthesisResults :=
  succeeded (Some 5%Z) (Some 20%Z) 3%Q.

Definition tie_yosys : SynthesisResults :=
  succeeded (Some 5%Z) (Some 20%Z) 3%Q.

(** The native flow is deeper and slower than the external flow. *)
Definition deep_circt : SynthesisResults :=
  succeeded (Some 10%Z) (Some 40%Z) 3%Q.

Definition shallow_yosys : SynthesisResults :=
  succeeded (Some 8%Z) (Some 50%Z) 2%Q.

(** The batch summary the driver returns for a batch (an empty batch
    record stands for a driver that raised). *)
Definition batch_of (path : string) (files : list (string * FileRun))
  : BatchResults :=
  match run_batch_comparison path files (Ok tt) with
  | Ok b => b
  | Fault _ => mkBatch path 0 ∅ new_summary
  end.

(** Processing a file raises the exception [e], in creating the per-file
    comparator, in the comparator or in saving the report. *)
Definition faults (f : FileRun) (e : string) : Prop :=
  (make_comparator f;; run_comparison f) = Fault e.

(** Processing a file goes through with the comparison [cmp], in which
    the CIRCT flow and the Yosys flow both succeeded. *)
Definition completes (f : FileRun) (cmp : Comparison) : Prop :=
  (make_comparator f;; run_comparison f) = Ok cmp
  /\ success (circt cmp) = true /\ success (yosys cmp) = true.

(** The batch record before the first file. *)
Definition new_batch (path : string) (files : list (string * FileRun))
  : BatchResults :=
  mkBatch path (Z.of_nat (length files)) ∅ new_summary.

(* ===================================================================== *)
(** * Further parts of the program and their reference definitions       *)
(* ===================================================================== *)

(** The wall-clock time a flow reports: the second reading of the clock
    minus the first. *)
Definition elapsed (w : World) : Q := (time_time w 1 - time_time w 0)%Q.

(** The time up to the reading the handler takes when the flow raises
    after it has stored its runtime: the third reading of the clock minus
    the first. *)
Definition overrun (w : World) : Q := (time_time w 2 - time_time w 0)%Q.

(** The five forms a flow result can take: a stage exited with a non-zero
    status; an exception was raised before any metric was stored, after the
    depth was stored, or after the success flag was set; the flow ran to
    its end.  [seconds] is the time up to the second reading of the clock,
    [late] the time up to the third. *)
Inductive flow_shape (seconds late : Q) : SynthesisResults -> Prop :=
| StageFailed (msg : string) :
    flow_shape seconds late (mkResults None None None false (Some msg))
| RaisedEarly (msg : string) :
    flow_shape seconds late
      (mkResults None None (Some seconds) false (Some msg))
| RaisedMidway (levels : option Z) (msg : string) :
    flow_shape seconds late
      (mkResults levels None (Some seconds) false (Some msg))
| RaisedLate (levels luts : option Z) (msg : string) :
    flow_shape seconds late
      (mkResults levels luts (Some late) true (Some msg))
| Finished (levels luts : option Z) :
    flow_shape seconds late
      (mkResults levels luts (Some seconds) true None).

(** A successful result carries a runtime: the time up to the second
    reading of the clock when it has no error message, the time up to the
    third reading when it has one.  A result without a runtime is a
    failure without metrics. *)
Definition reports_runtime (seconds late : Q) (r : SynthesisResults)
  : Prop :=
  (success r = true ->
   (error_message r = None /\ runtime r = Some seconds)
   \/ (error_message r <> None /\ runtime r = Some late))
  /\ (runtime r = None ->
      success r = false /\ timing_levels r = None /\ lut_count r = None).

(** The clock has moved on at its second and at its third reading. *)
Definition clock_advances (w : World) : Prop :=
  (time_time w 0 < time_time w 1)%Q /\ (time_time w 0 < time_time w 2)%Q.

(** A failure carries a reason; a result without a reason is a success. *)
Definition reports_reason (r : SynthesisResults) : Prop :=
  (success r = false -> exists msg, error_message r = Some msg)
  /\ (error_message r = None -> success r = true).

(** The exit status [run_command] reports for a tool. *)
Definition exit_status (w : World) (t : tool) : Z :=
  fst (fst (run_command (subprocess_run w t))).

(** A result is a success exactly under the given condition. *)
Definition succeeds_iff (condition : Prop) (r : SynthesisResults) : Prop :=
  success r = true <-> condition.

(** [print_results].  The model keeps whether the function raises and
    with what message, not the text it writes; writing to the console is
    taken not to raise.  The operations of the function that can raise
    are the format [f"{r.runtime:.3f}"] of a runtime that is [None] and,
    in the analysis section, the comparisons [improvement > 0] and
    [speedup > 1.0] and the call [.items()] on values of the wrong
    type. *)
Definition format_seconds (x : option Q) : fallible unit :=
  match x with
  | Some _ => Ok tt
  | None => Fault "unsupported format string passed to NoneType.__format__"
  end.

(** The block printed for one flow. *)
Definition print_flow (r : SynthesisResults) : fallible unit :=
  if success r then format_seconds (runtime r) else Ok tt.

(** [type(v).__name__] *)
Definition type_name (v : value) : string :=
  match v with
  | VStr _ => "str"
  | VInt _ => "int"
  | VFloat _ => "float"
  | VIntMap _ | VFloatMap _ => "dict"
  end.

(** [bool(v)] *)
Definition truthy (v : value) : bool :=
  match v with
  | VStr s => negb (String.eqb s "")
  | VInt z => negb (z =? 0)%Z
  | VFloat q => negb (Qeq_bool q 0)
  | VIntMap m => negb (Nat.eqb (length m) 0)
  | VFloatMap m => negb (Nat.eqb (length m) 0)
  end.

(** [v != 'Unable to compare'] *)
Definition is_ranked (v : value) : bool :=
  match v with
  | VStr s => negb (String.eqb s unable)
  | _ => true
  end.

(** [v > bound], where the bound is the integer 0 or the float 1.0:
    defined for numbers, [TypeError] otherwise. *)
Definition greater_than (v : value) (bound : Q) (bound_type : string)
  : fallible bool :=
  match v with
  | VInt z => Ok (Qltb bound (inject_Z z))
  | VFloat q => Ok (Qltb bound q)
  | _ =>
      Fault ("'>' not supported between instances of '" +:+ type_name v
             +:+ "' and '" +:+ bound_type +:+ "'")
  end.

(** [v.items()]: the names of a dictionary, [AttributeError] otherwise. *)
Definition items (v : value) : fallible (list string) :=
  match v with
  | VIntMap m => Ok (map fst m)
  | VFloatMap m => Ok (map fst m)
  | _ => Fault ("'" +:+ type_name v +:+ "' object has no attribute 'items'")
  end.

(** One of the three blocks of the analysis section: the winner, the
    margin over the second best when it exceeds the bound, and one line
    for every entry of the mapping.  The numbers of the mapping are
    printed as they are or with [:.3f], which is defined for integers and
    floats. *)
Definition print_ranking (a : gmap string value)
    (winner_key all_key margin_key : string) (margin_default : value)
    (bound : Q) (bound_type : string) : fallible unit :=
  let winner := default (VStr unable) (a !! winner_key) in
  let all := default (VIntMap []) (a !! all_key) in
  let margin := default margin_default (a !! margin_key) in
  if is_ranked winner && truthy all then
    greater_than margin bound bound_type;;
    items all;;
    Ok tt
  else Ok tt.

Definition print_results (comparison : Comparison) : fallible unit :=
  let a := analysis comparison in
  print_flow (circt comparison);;
  print_flow (yosys comparison);;
  match hybrid comparison with
  | Some h => print_flow h
  | None => Ok tt
  end;;
  if (2 <=? length (successful_flows (circt comparison) (yosys comparison)
                      (hybrid comparison)))%nat
  then
    print_ranking a "timing_winner" "timing_levels_all" "timing_improvement"
      (VInt 0) 0%Q "int";;
    print_ranking a "area_winner" "lut_counts_all" "area_improvement"
      (VInt 0) 0%Q "int";;
    print_ranking a "runtime_winner" "runtimes_all" "speedup"
      (VFloat 1) 1%Q "float"
  else Ok tt.

(** The result stored under a strategy name. *)
Definition flow_named (c y : SynthesisResults) (h : option SynthesisResults)
    (name : string) : option SynthesisResults :=
  if String.eqb name "CIRCT" then Some c
  else if String.eqb name "Yosys+ABC" then Some y
  else if String.eqb name "CIRCT+Yosys" then h
  else None.

(** What processing one file of a batch ends in. *)
Definition outcome (f : FileRun) : fallible Comparison :=
  make_comparator f;; run_comparison f.

(** The file counts as a successful comparison. *)
Definition file_ok (f : FileRun) : bool :=
  match outcome f with
  | Ok comparison => success (circt comparison) && success (yosys comparison)
  | Fault _ => false
  end.

(** The entry the batch driver stores for a file. *)
Definition file_entry (file : string) (f : FileRun) : file_record :=
  match outcome f with
  | Ok comparison =>
      Compared file (circt comparison) (yosys comparison)
        (analysis comparison)
  | Fault e => Errored file e
  end.

(** The base names of the files of a batch. *)
Definition base_names (files : list (string * FileRun)) : list string :=
  map (fun item => path_name (fst item)) files.

(** The win tallies are not negative and, for each metric, the wins of
    the two compared flows together do not exceed the successful
    comparisons. *)
Definition tallies_bounded (s : Summary) : Prop :=
  (0 <= circt_wins_timing s /\ 0 <= yosys_wins_timing s
   /\ 0 <= circt_wins_area s /\ 0 <= yosys_wins_area s
   /\ circt_wins_timing s + yosys_wins_timing s <= successful_comparisons s
   /\ circt_wins_area s + yosys_wins_area s <= successful_comparisons s)%Z.

(** [str.lower()] below code point 256: the ASCII capitals and the Latin-1
    capitals (all of 192..222 but the multiplication sign). *)
Definition lower_char (a : ascii) : ascii :=
  let n := nat_of_ascii a in
  if ((65 <=? n) && (n <=? 90)
      || (192 <=? n) && (n <=? 222) && negb (n =? 215))%nat
  then ascii_of_nat (n + 32) else a.

Fixpoint lower (s : string) : string :=
  match s with
  | EmptyString => EmptyString
  | String a s' => String (lower_char a) (lower s')
  end.

(** [suffix.lower() in ['.sv', '.v']] *)
Definition is_verilog_suffix (suffix : string) : bool :=
  String.eqb (lower suffix) ".sv" || String.eqb (lower suffix) ".v".

(** What the file system holds at the input path: a regular file, a
    directory (with what the two recursive globs yield, each entry with
    the answer of [is_file()]), or neither. *)
Inductive path_state : Type :=
| IsFile
| IsDir (sv_matches v_matches : list (string * bool))
| Neither.

(** The input path: its text (in the form [str(Path(p))] gives), its
    [suffix], and the state of the file system there. *)
Record InputPath : Type := mkInput {
  path_text : string;
  path_suffix : string;
  path_kind : path_state
}.

(** [list.sort()] on strings: ascending by code point, modelled by the
    insertion sort. *)
Fixpoint insert_path (x : string) (l : list string) : list string :=
  match l with
  | [] => [x]
  | y :: l' => if String.ltb y x then y :: insert_path x l' else x :: l
  end.

Fixpoint sort_paths (l : list string) : list string :=
  match l with
  | [] => []
  | x :: l' => insert_path x (sort_paths l')
  end.

(** The regular files the two globs of a directory yield. *)
Definition globbed (sv_matches v_matches : list (string * bool))
  : list string :=
  map fst (List.filter snd (sv_matches ++ v_matches)).

Definition find_verilog_files (p : InputPath) : fallible (list string) :=
  match path_kind p with
  | IsFile =>
      Ok (if is_verilog_suffix (path_suffix p) then [path_text p] else [])
  | IsDir sv_matches v_matches =>
      Ok (sort_paths (globbed sv_matches v_matches))
  | Neither => Fault ("Input path does not exist: " +:+ path_text p)
  end.

(** Ascending by code point. *)
Definition ascending_paths : list string -> Prop :=
  StronglySorted (fun a b => String.leb a b = true).

(** One invocation of the program, after the arguments were parsed. *)
Record Invocation : Type := mkInvocation {
  input : InputPath;
  path_exists : bool;
  comparator_dirs : fallible unit;
  runs : string -> FileRun;
  save_batch_report : fallible unit
}.

(** [main]: the exit status of the process.  [sys.exit(1)] leaves the
    function at once ([SystemExit] is not an [Exception]); an exception
    that escapes ends the process with status 1 as well.
    [KeyboardInterrupt] is not modelled. *)
Definition main (i : Invocation) : Z :=
  if negb (path_exists i) then 1
  else
    match comparator_dirs i with
    | Fault _ => 1
    | Ok _ =>
        match path_kind (input i) with
        | IsDir _ _ =>
            match
              verilog_files ← find_verilog_files (input i);
              run_batch_comparison (path_text (input i))
                (map (fun file => (file, runs i file)) verilog_files)
                (save_batch_report i)
            with
            | Ok comparison =>
                if (0 <? failed_comparisons (summary comparison))%Z
                then 1 else 0
            | Fault _ => 1
            end
        | _ =>
            if negb (is_verilog_suffix (path_suffix (input i))) then 1
            else
              match run_comparison (runs i (path_text (input i))) with
              | Ok comparison =>
                  if success (circt comparison) then 0
                  else if success (yosys comparison) then 0
                  else
                    match hybrid comparison with
                    | Some h => if success h then 0 else 1
                    | None => 1
                    end
              | Fault _ => 1
              end
        end
    end.

(** A string of decimal digits. *)
Fixpoint all_digits (s : string) : bool :=
  match s with
  | EmptyString => true
  | String a s' => Re.is_digit a && all_digits s'
  end.

(** Every tool exits with status 0, but no output file is there. *)
Definition bare_world : World :=
  {| time_time := fun n => inject_Z (100 + 2 * Z.of_nat n);
     subprocess_run := all_pass;
     create_script := Ok "/tmp/tmpk3v9.ys";
     write_log := Ok tt;
     log_exists := Ok false;
     log_readable := false;
     blif_exists := Ok false;
     blif_content := Unreadable;
     json_exists := Ok false;
     json_content := JsonUnreadable;
     unlink_script := Ok tt |}.

(** circt-verilog is not installed. *)
Definition no_verilog_world : World :=
  world_of
    (fun t =>
       match t with
       | CirctVerilog =>
           NotFound "[Errno 2] No such file or directory: 'circt-verilog'"
       | _ => all_pass t
       end)
    (Ok tt).

(** The program started on the file [bench/top.sv], and on the directory
    [bench] that holds just this file. *)
Definition file_invocation : Invocation :=
  mkInvocation (mkInput "bench/top.sv" ".sv" IsFile) true (Ok tt)
    (fun _ => circt_only_run) (Ok tt).

Definition dir_invocation : Invocation :=
  mkInvocation (mkInput "bench" "" (IsDir [("bench/top.sv", true)] []))
    true (Ok tt) (fun _ => circt_only_run) (Ok tt).

(** Yosys exits with status 1 and the log cannot be written. *)
Definition log_fault_world : World :=
  {| time_time := fun n => inject_Z (100 + 2 * Z.of_nat n);
     subprocess_run := yosys_fails;
     create_script := Ok "/tmp/tmpk3v9.ys";
     write_log := Fault "[Errno 28] No space left on device";
     log_exists := Ok false;
     log_readable := false;
     blif_exists := Ok false;
     blif_content := Unreadable;
     json_exists := Ok false;
     json_content := JsonUnreadable;
     unlink_script := Ok tt |}.

(** The steps of the case analysis on a runner: unfold the flow, then
    split on the innermost scrutinee until the result is a record. *)
Ltac deepest x :=
  lazymatch x with
  | match ?y with _ => _ end => deepest y
  | ?f _ =>
      lazymatch f with
      | match ?y with _ => _ end => deepest y
      | _ => x
      end
  | _ => x
  end.

Ltac run_step :=
  lazymatch goal with
  | |- _ (match ?b with _ => _ end) =>
      let s := deepest b in
      destruct s eqn:?; cbv beta iota zeta delta [fst snd]
  end.

Ltac run_start :=
  unfold run_circt_synthesis, run_yosys_synthesis, run_hybrid_synthesis,
    try_flow, stage, yosys_tail, mbind, mret, run_bind, run_ret, bind, io,
    now, when, assign, return_results, ret;
  cbv beta iota zeta delta [fst snd].

Ltac run_fields :=
  unfold elapsed, overrun, flow_invariant, set_success, set_runtime,
    set_lut_count,
    set_timing_levels, set_error_message, new_results;
  cbv beta iota zeta delta
    [timing_levels lut_count runtime success error_message fst snd].

Ltac success_finish :=
  unfold succeeds_iff; run_fields; cbn [fst snd];
  repeat match goal with
         | H : (_ =? _)%Z = true |- _ => apply Z.eqb_eq in H
         | H : (_ =? _)%Z = false |- _ => apply Z.eqb_neq in H
         | H : negb _ = true |- _ => apply negb_true_iff in H
         | H : negb _ = false |- _ => apply negb_false_iff in H
         | u : unit |- _ => destruct u
         end;
  split;
  [ intros ?; try discriminate; repeat split; try done; eauto
  | intros ?; try reflexivity;
    repeat match goal with
           | H : _ /\ _ |- _ => destruct H
           | H : exists _, _ |- _ => destruct H
           end; try congruence ].

(* ===================================================================== *)
(** * Facts about the pattern matcher and the netlist extractor          *)
(* ===================================================================== *)

Lemma prefix_cons c w a s :
  String.prefix (String c w) (String a s) = Ascii.eqb a c && String.prefix w s.
Proof.
  simpl. destruct (ascii_dec c a) as [->|Hne].
  - by rewrite Ascii.eqb_refl.
  - destruct (Ascii.eqb_spec a c); [congruence | done].
Qed.

Lemma match_lit w : forall prev s,
  Re.match_here (Re.lit w) prev s =
    if String.prefix w s then Some (String.length w, []) else None.
Proof.
  induction w as [|c w IH]; intros prev s.
  - by destruct s.
  - destruct s as [|a s]; [done|].
    rewrite prefix_cons. cbn [Re.lit Re.match_here]. unfold Re.is_chr.
    destruct (Ascii.eqb a c); [|done]. rewrite IH.
    by destruct (String.prefix w s).
Qed.

Lemma match_names prev s :
  Re.match_here Re.names_pattern prev s =
    if Re.at_bol prev && String.prefix ".names" s then Some (6%nat, []) else None.
Proof.
  unfold Re.names_pattern. cbn [Re.match_here].
  destruct (Re.at_bol prev); [|done]. by rewrite match_lit.
Qed.

Lemma prefix_plain_run w s :
  no_newline w = true -> String.prefix w s = true -> plain_run (String.length w) s = true.
Proof.
  revert s. induction w as [|c w IH]; intros s Hw Hp; [done|].
  destruct s as [|a s]; [done|]. rewrite prefix_cons in Hp.
  simpl in *. apply andb_prop in Hw as [Hc Hw]. apply andb_prop in Hp as [Ha Hp].
  apply Ascii.eqb_eq in Ha as ->. rewrite Hc. simpl. by apply IH.
Qed.

Lemma findall_names_count s : forall prev k,
  plain_run k s = true ->
  length (Re.findall_from Re.names_pattern prev k s) =
    count_bol ".names" (Nat.eqb k 0 && Re.at_bol prev) s.
Proof.
  induction s as [|a s IH]; intros prev k Hk.
  - destruct k; [|done]. cbn [Re.findall_from]. rewrite match_names.
    destruct (Re.at_bol prev); done.
  - destruct k as [|k].
    + cbn [Re.findall_from]. rewrite match_names. cbn [Nat.eqb andb count_bol].
      destruct (Re.at_bol prev && String.prefix ".names" (String a s)) eqn:E.
      * apply andb_prop in E as [_ E].
        pose proof (prefix_plain_run ".names" _ eq_refl E) as Hr.
        cbn [String.length plain_run] in Hr.
        apply andb_prop in Hr as [Ha Hr].
        cbn [fst Nat.pred length]. rewrite (IH (Some a) 5%nat Hr).
        cbn [Nat.eqb andb]. apply negb_true_iff in Ha. by rewrite Ha.
      * rewrite (IH (Some a) 0%nat eq_refl). done.
    + cbn [plain_run] in Hk. apply andb_prop in Hk as [Ha Hk].
      cbn [Re.findall_from Nat.eqb andb count_bol].
      rewrite (IH (Some a) k Hk). apply negb_true_iff in Ha.
      rewrite Ha. cbn [Re.at_bol]. rewrite Ha. by rewrite andb_false_r.
Qed.

Lemma split_lines_nonempty s : split_lines s <> [].
Proof.
  destruct s as [|a s]; [done|]. simpl.
  destruct (Ascii.eqb a Re.newline); [done|]. by destruct (split_lines s).
Qed.

Lemma prefix_first_line w : no_newline w = true -> forall s,
  String.prefix w (first_line s) = String.prefix w s.
Proof.
  induction w as [|c w IH]; intros Hw s.
  - unfold first_line. by destruct (hd _ _), s.
  - simpl in Hw. apply andb_prop in Hw as [Hc Hw]. apply negb_true_iff in Hc.
    destruct s as [|a s]; [done|].
    unfold first_line. cbn [split_lines].
    destruct (Ascii.eqb a Re.newline) eqn:Ea.
    + cbn [hd]. rewrite prefix_cons.
      destruct (Ascii.eqb_spec a c) as [->|]; [congruence|done].
    + pose proof (split_lines_nonempty s) as Hne.
      specialize (IH Hw s). unfold first_line in IH.
      destruct (split_lines s) as [|l ls]; [done|].
      cbn [hd] in *. by rewrite !prefix_cons, IH.
Qed.

Lemma count_bol_lines w : no_newline w = true -> forall s bol,
  w <> EmptyString ->
  count_bol w bol s =
    ((if bol && String.prefix w (first_line s) then 1 else 0)
     + length (List.filter (String.prefix w) (tl (split_lines s))))%nat.
Proof.
  intros Hw s. induction s as [|a s IH]; intros bol Hne.
  - cbn. destruct w; [done|]. by rewrite andb_false_r.
  - cbn [count_bol]. rewrite (IH _ Hne). rewrite !(prefix_first_line w Hw).
    unfold first_line. cbn [split_lines].
    destruct (Ascii.eqb a Re.newline) eqn:Ea.
    + cbn [tl andb]. pose proof (split_lines_nonempty s) as Hs.
      destruct (split_lines s) as [|l ls] eqn:El; [done|].
      cbn [List.filter hd tl].
      assert (String.prefix w l = String.prefix w s) as <-.
      { rewrite <- (prefix_first_line w Hw s). unfold first_line. by rewrite El. }
      destruct (String.prefix w l); cbn [length]; lia.
    + cbn [andb]. pose proof (split_lines_nonempty s) as Hs.
      destruct (split_lines s) as [|l ls] eqn:El; [done|].
      cbn [tl]. lia.
Qed.

Lemma findall_names_lines content :
  length (Re.findall Re.names_pattern content) = names_lines content.
Proof.
  unfold Re.findall. rewrite findall_names_count by done.
  cbn [Nat.eqb Re.at_bol andb].
  rewrite count_bol_lines by done. unfold names_lines, is_names_line, first_line.
  pose proof (split_lines_nonempty content).
  destruct (split_lines content) as [|l ls]; [done|].
  cbn [hd tl List.filter andb]. by destruct (String.prefix ".names" l).
Qed.

(* ===================================================================== *)
(** * Facts about the stable sort                                        *)
(* ===================================================================== *)

Section SortFacts.
Context {V : Type}.
Variable ltb : V -> V -> bool.
Hypothesis ltb_irrefl : forall a, ltb a a = false.
Hypothesis ltb_trans :
  forall a b c, ltb a b = true -> ltb b c = true -> ltb a c = true.
Hypothesis ltb_cotrans :
  forall a b c, ltb a c = true -> ltb a b = true \/ ltb b c = true.

Lemma ltb_asym a b : ltb a b = true -> ltb b a = false.
Proof.
  intros H. destruct (ltb b a) eqn:E; [|done].
  by rewrite <- (ltb_irrefl a), (ltb_trans a b a).
Qed.

Lemma ge_trans a b c : ltb b a = false -> ltb c b = false -> ltb c a = false.
Proof.
  intros H1 H2. destruct (ltb c a) eqn:E; [|done].
  destruct (ltb_cotrans c b a E); congruence.
Qed.

Lemma insert_sorted_perm x l : Permutation (insert_sorted ltb x l) (x :: l).
Proof.
  induction l as [|y l IH]; simpl; [done|].
  destruct (ltb (snd y) (snd x)); [|done].
  rewrite IH. apply perm_swap.
Qed.

Lemma sort_by_value_perm l : Permutation (sort_by_value ltb l) l.
Proof.
  induction l as [|x l IH]; simpl; [done|].
  by rewrite insert_sorted_perm, IH.
Qed.

Lemma insert_sorted_ascending x l :
  ascending ltb l -> ascending ltb (insert_sorted ltb x l).
Proof.
  unfold ascending. induction l as [|y l IH]; intros Hs; simpl.
  - repeat constructor.
  - apply StronglySorted_inv in Hs as [Hs Hy].
    destruct (ltb (snd y) (snd x)) eqn:E.
    + constructor; [by apply IH|].
      apply Forall_forall. intros z Hz.
      rewrite (insert_sorted_perm x l) in Hz.
      apply elem_of_cons in Hz as [->|Hz].
      * by apply ltb_asym.
      * rewrite Forall_forall in Hy. by apply Hy.
    + constructor; [by constructor|].
      constructor; [done|].
      eapply Forall_impl; [exact Hy|]. simpl. intros z Hz.
      by apply (ge_trans _ (snd y)).
Qed.

Lemma sort_by_value_ascending l : ascending ltb (sort_by_value ltb l).
Proof.
  induction l as [|x l IH]; simpl; [constructor|].
  by apply insert_sorted_ascending.
Qed.

Lemma sort_by_value_length l : length (sort_by_value ltb l) = length l.
Proof. apply Permutation_length, sort_by_value_perm. Qed.


Lemma dict_set_fresh k v (d : list (string * V)) :
  k ∉ map fst d -> dict_set k v d = d ++ [(k, v)].
Proof.
  induction d as [|[k' v'] d IH]; intros Hk; simpl; [done|].
  simpl in Hk. apply not_elem_of_cons in Hk as [Hne Hk].
  destruct (String.eqb_spec k' k); [congruence|]. by rewrite IH.
Qed.

Lemma dict_of_pairs_from (l d : list (string * V)) :
  NoDup (map fst (d ++ l)) ->
  fold_left (fun d e => dict_set (fst e) (snd e) d) l d = d ++ l.
Proof.
  revert d. induction l as [|[k v] l IH]; intros d Hnd; simpl.
  - by rewrite app_nil_r.
  - rewrite dict_set_fresh.
    + rewrite IH; rewrite <- app_assoc; done.
    + rewrite map_app in Hnd. apply NoDup_app in Hnd as (_ & Hd & _).
      intros Hin. apply (Hd k Hin). simpl. left.
Qed.

Lemma dict_of_pairs_id (l : list (string * V)) :
  NoDup (map fst l) -> dict_of_pairs l = l.
Proof. intros H. unfold dict_of_pairs. by rewrite dict_of_pairs_from. Qed.

Lemma present_names (metric : SynthesisResults -> option V) flows :
  sublist (map fst (present metric flows)) (map fst flows).
Proof.
  induction flows as [|[n r] flows IH]; simpl; [done|].
  destruct (metric r); simpl; by constructor.
Qed.
End SortFacts.

Lemma successful_flows_names c y h :
  sublist (map fst (successful_flows c y h)) priority.
Proof.
  unfold successful_flows, priority.
  destruct (success c), (success y), h as [h|]; try destruct (success h);
    simpl; repeat (first [done | apply sublist_skip | apply sublist_cons | apply sublist_nil]).
Qed.

Lemma priority_NoDup : NoDup priority.
Proof. by apply (bool_decide_unpack _). Qed.

(* ===================================================================== *)
(** * Facts about the comparator                                         *)
(* ===================================================================== *)

Lemma Zltb_irrefl a : Z.ltb a a = false.
Proof. apply Z.ltb_irrefl. Qed.
Lemma Zltb_trans a b c : Z.ltb a b = true -> Z.ltb b c = true -> Z.ltb a c = true.
Proof. rewrite !Z.ltb_lt. lia. Qed.
Lemma Zltb_cotrans a b c : Z.ltb a c = true -> Z.ltb a b = true \/ Z.ltb b c = true.
Proof. rewrite !Z.ltb_lt. lia. Qed.

Lemma Qltb_lt x y : Qltb x y = true <-> (x < y)%Q.
Proof.
  unfold Qltb. rewrite negb_true_iff. split.
  - intros H. apply Qnot_le_lt. intros Hle.
    apply Qle_bool_iff in Hle. congruence.
  - intros H. destruct (Qle_bool y x) eqn:E; [|done].
    apply Qle_bool_iff in E. by apply Qlt_not_le in H.
Qed.
Lemma Qltb_ge x y : Qltb x y = false <-> (y <= x)%Q.
Proof.
  unfold Qltb. rewrite negb_false_iff. apply Qle_bool_iff.
Qed.
Lemma Qltb_irrefl a : Qltb a a = false.
Proof. apply Qltb_ge, Qle_refl. Qed.
Lemma Qltb_trans a b c : Qltb a b = true -> Qltb b c = true -> Qltb a c = true.
Proof. rewrite !Qltb_lt. apply Qlt_trans. Qed.
Lemma Qltb_cotrans a b c : Qltb a c = true -> Qltb a b = true \/ Qltb b c = true.
Proof.
  rewrite !Qltb_lt. intros H. destruct (Qlt_le_dec a b) as [|Hle]; [by left|].
  right. by apply (Qle_lt_trans _ a).
Qed.

Lemma int_metric_spec wk ak ik entries (a a' : gmap string value) :
  wk <> ak -> wk <> ik -> ak <> ik ->
  compare_int_metric wk ak ik entries a = Ok a' ->
  (forall k, k <> wk -> k <> ak -> k <> ik -> a' !! k = a !! k) /\
  ((length entries < 2)%nat /\ a' !! wk = Some (VStr unable)
     /\ a' !! ak = a !! ak /\ a' !! ik = a !! ik
   \/ exists best second rest,
        sort_by_value Z.ltb entries = best :: second :: rest
        /\ a' !! wk = Some (VStr (fst best))
        /\ a' !! ak = Some (VIntMap (dict_of_pairs (best :: second :: rest)))
        /\ a' !! ik = Some (VInt (snd second - snd best))).
Proof.
  intros H1 H2 H3. unfold compare_int_metric.
  destruct (2 <=? length entries)%nat eqn:El.
  - apply Nat.leb_le in El.
    pose proof (sort_by_value_length Z.ltb entries) as Hl.
    destruct (sort_by_value Z.ltb entries) as [|best [|second rest]];
      simpl in Hl; try lia.
    intros [= <-]. split.
    + intros k ? ? ?. by rewrite !lookup_insert_ne.
    + right. exists best, second, rest. split; [done|]. repeat split.
      * by rewrite !lookup_insert_ne, lookup_insert_eq by done.
      * by rewrite lookup_insert_ne, lookup_insert_eq by done.
      * by rewrite lookup_insert_eq.
  - apply Nat.leb_gt in El. intros [= <-]. split.
    + intros k ? ? ?. by rewrite lookup_insert_ne.
    + left. split; [done|]. repeat split.
      * by rewrite lookup_insert_eq.
      * by rewrite lookup_insert_ne.
      * by rewrite lookup_insert_ne.
Qed.

Lemma runtime_spec entries (a a' : gmap string value) :
  compare_runtime entries a = Ok a' ->
  (forall k, k <> "runtime_winner" -> k <> "runtimes_all" -> k <> "speedup" ->
     a' !! k = a !! k) /\
  ((length entries < 2)%nat /\ a' = a
   \/ exists fastest second rest,
        sort_by_value Qltb entries = fastest :: second :: rest
        /\ ~ (snd fastest == 0)%Q
        /\ a' !! "runtime_winner" = Some (VStr (fst fastest))
        /\ a' !! "runtimes_all" =
             Some (VFloatMap (dict_of_pairs (fastest :: second :: rest)))
        /\ a' !! "speedup" = Some (VFloat (snd second / snd fastest)%Q)).
Proof.
  unfold compare_runtime.
  destruct (2 <=? length entries)%nat eqn:El.
  - apply Nat.leb_le in El.
    pose proof (sort_by_value_length Qltb entries) as Hl.
    destruct (sort_by_value Qltb entries) as [|best [|second rest]];
      simpl in Hl; try lia.
    destruct (Qeq_bool (snd best) 0) eqn:Ez; [done|].
    intros [= <-]. split.
    + intros k ? ? ?. by rewrite !lookup_insert_ne.
    + right. exists best, second, rest. split; [done|]. split.
      { intros Hq. apply Qeq_bool_iff in Hq. congruence. }
      repeat split.
      * by rewrite !lookup_insert_ne, lookup_insert_eq by done.
      * by rewrite lookup_insert_ne, lookup_insert_eq by done.
      * by rewrite lookup_insert_eq.
  - apply Nat.leb_gt in El. intros [= <-]. split; [done|]. by left.
Qed.

Lemma present_length {V} (metric : SynthesisResults -> option V) flows :
  (length (present metric flows) <= length flows)%nat.
Proof.
  induction flows as [|[n r] flows IH]; simpl; [done|].
  destruct (metric r); simpl; lia.
Qed.

Lemma compare_results_spec c y h cmp :
  compare_results c y h = Ok cmp ->
  circt cmp = c /\ yosys cmp = y /\ hybrid cmp = h /\
  ((length (successful_flows c y h) < 2)%nat
     /\ analysis cmp =
          <["area_winner" := VStr unable]>
            (<["timing_winner" := VStr unable]> ∅)
   \/ exists a1 a2,
        compare_int_metric "timing_winner" "timing_levels_all"
          "timing_improvement"
          (present timing_levels (successful_flows c y h)) ∅ = Ok a1
        /\ compare_int_metric "area_winner" "lut_counts_all"
             "area_improvement"
             (present lut_count (successful_flows c y h)) a1 = Ok a2
        /\ compare_runtime (present runtime (successful_flows c y h)) a2
           = Ok (analysis cmp)).
Proof.
  unfold compare_results.
  destruct (length (successful_flows c y h) <? 2)%nat eqn:El.
  - apply Nat.ltb_lt in El. intros [= <-]. simpl. repeat split; try done.
    by left.
  - destruct (compare_int_metric "timing_winner" _ _ _ _) as [a1|] eqn:E1;
      [|done].
    simpl. destruct (compare_int_metric "area_winner" _ _ _ _) as [a2|] eqn:E2;
      [|done].
    simpl. destruct (compare_runtime _ _) as [a3|] eqn:E3; [|done].
    simpl. intros [= <-]. simpl. repeat split; try done.
    right. by exists a1, a2.
Qed.

Lemma timing_block c y h cmp :
  compare_results c y h = Ok cmp ->
  let entries := present timing_levels (successful_flows c y h) in
  (length entries < 2)%nat
    /\ analysis cmp !! "timing_winner" = Some (VStr unable)
    /\ analysis cmp !! "timing_levels_all" = None
    /\ analysis cmp !! "timing_improvement" = None
  \/ exists best second rest,
       sort_by_value Z.ltb entries = best :: second :: rest
       /\ analysis cmp !! "timing_winner" = Some (VStr (fst best))
       /\ analysis cmp !! "timing_levels_all" =
            Some (VIntMap (dict_of_pairs (best :: second :: rest)))
       /\ analysis cmp !! "timing_improvement" =
            Some (VInt (snd second - snd best)).
Proof.
  intros H entries. subst entries.
  destruct (compare_results_spec _ _ _ _ H) as (_ & _ & _ & [[Hl ->]|Hc]).
  - left. split.
    + pose proof (present_length timing_levels (successful_flows c y h)). lia.
    + done.
  - destruct Hc as (a1 & a2 & E1 & E2 & E3).
    apply int_metric_spec in E1 as [_ E1]; [|done..].
    apply int_metric_spec in E2 as [K2 _]; [|done..].
    apply runtime_spec in E3 as [K3 _].
    rewrite !K3, !K2 by done.
    destruct E1 as [(? & ? & ? & ?)|(b & s & r & ? & ? & ? & ?)].
    + left. by rewrite lookup_empty in *.
    + right. by exists b, s, r.
Qed.

Lemma area_block c y h cmp :
  compare_results c y h = Ok cmp ->
  let entries := present lut_count (successful_flows c y h) in
  (length entries < 2)%nat
    /\ analysis cmp !! "area_winner" = Some (VStr unable)
    /\ analysis cmp !! "lut_counts_all" = None
    /\ analysis cmp !! "area_improvement" = None
  \/ exists best second rest,
       sort_by_value Z.ltb entries = best :: second :: rest
       /\ analysis cmp !! "area_winner" = Some (VStr (fst best))
       /\ analysis cmp !! "lut_counts_all" =
            Some (VIntMap (dict_of_pairs (best :: second :: rest)))
       /\ analysis cmp !! "area_improvement" =
            Some (VInt (snd second - snd best)).
Proof.
  intros H entries. subst entries.
  destruct (compare_results_spec _ _ _ _ H) as (_ & _ & _ & [[Hl ->]|Hc]).
  - left. split.
    + pose proof (present_length lut_count (successful_flows c y h)). lia.
    + done.
  - destruct Hc as (a1 & a2 & E1 & E2 & E3).
    apply int_metric_spec in E1 as [K1 _]; [|done..].
    apply int_metric_spec in E2 as [_ E2]; [|done..].
    apply runtime_spec in E3 as [K3 _].
    rewrite !K3 by done.
    destruct E2 as [(? & ? & E & E')|(b & s & r & ? & ? & ? & ?)].
    + left. rewrite K1 in E, E' by done. by rewrite lookup_empty in *.
    + right. by exists b, s, r.
Qed.

Lemma runtime_block c y h cmp :
  compare_results c y h = Ok cmp ->
  let entries := present runtime (successful_flows c y h) in
  (length entries < 2)%nat
    /\ analysis cmp !! "runtime_winner" = None
    /\ analysis cmp !! "runtimes_all" = None
    /\ analysis cmp !! "speedup" = None
  \/ exists fastest second rest,
       sort_by_value Qltb entries = fastest :: second :: rest
       /\ ~ (snd fastest == 0)%Q
       /\ analysis cmp !! "runtime_winner" = Some (VStr (fst fastest))
       /\ analysis cmp !! "runtimes_all" =
            Some (VFloatMap (dict_of_pairs (fastest :: second :: rest)))
       /\ analysis cmp !! "speedup" =
            Some (VFloat (snd second / snd fastest)%Q).
Proof.
  intros H entries. subst entries.
  destruct (compare_results_spec _ _ _ _ H) as (_ & _ & _ & [[Hl ->]|Hc]).
  - left. split.
    + pose proof (present_length runtime (successful_flows c y h)). lia.
    + done.
  - destruct Hc as (a1 & a2 & E1 & E2 & E3).
    apply int_metric_spec in E1 as [K1 _]; [|done..].
    apply int_metric_spec in E2 as [K2 _]; [|done..].
    apply runtime_spec in E3 as [_ E3].
    destruct E3 as [(? & ->)|(b & s & r & ? & ? & ? & ? & ?)].
    + left. rewrite !K2, !K1 by done. by rewrite lookup_empty.
    + right. by exists b, s, r.
Qed.

(* ===================================================================== *)
(** * Properties of the metric extractors                                *)
(* ===================================================================== *)

(** The log-pattern extractor returns the value of the last match. *)
Lemma parse_yosys_abc_levels_last log ms m :
  Re.findall Re.abc_levels_pattern log = ms ++ [m] ->
  _parse_yosys_abc_levels (Content log) = Some (Re.int m).
Proof.
  intros H. unfold _parse_yosys_abc_levels. cbv zeta.
  by rewrite H, last_snoc.
Qed.

(** An unreadable log and a log without a statistics line give no depth. *)
Lemma parse_yosys_abc_levels_absent log :
  _parse_yosys_abc_levels Unreadable = None
  /\ (Re.findall Re.abc_levels_pattern log = [] ->
      _parse_yosys_abc_levels (Content log) = None).
Proof.
  split; [done|]. intros H. unfold _parse_yosys_abc_levels. cbv zeta.
  by rewrite H.
Qed.

(** C2, as stated, does not hold: on [abc_log], whose statistics lines
    carry the levels 12, 9 and 15 in this order, the extractor does not
    return 9. *)
Lemma abc_levels_not_nine :
  ~ (forall log,
       map Re.int (Re.findall Re.abc_levels_pattern log) = [12; 9; 15]%Z ->
       _parse_yosys_abc_levels (Content log) = Some 9%Z).
Proof.
  intros H. specialize (H abc_log). vm_compute in H.
  specialize (H eq_refl). discriminate H.
Qed.

(** C2, amended: for a log whose statistics-line matches carry, in order
    of appearance, the levels 12, 9 and 15, the log-pattern extractor
    returns 15, the level of the last match. *)
Theorem abc_levels_last_of_three log :
  map Re.int (Re.findall Re.abc_levels_pattern log) = [12; 9; 15]%Z ->
  _parse_yosys_abc_levels (Content log) = Some 15%Z.
Proof.
  intros H. unfold _parse_yosys_abc_levels. cbv zeta.
  destruct (Re.findall Re.abc_levels_pattern log) as [|m1 [|m2 [|m3 [|m4 ms]]]];
    try discriminate H.
  injection H as _ _ H3. by rewrite <- H3.
Qed.

Lemma abc_levels_last_of_three_witness :
  map Re.int (Re.findall Re.abc_levels_pattern abc_log) = [12; 9; 15]%Z
  /\ _parse_yosys_abc_levels (Content abc_log) = Some 15%Z.
Proof.
  split; [vm_compute; reflexivity|].
  apply (abc_levels_last_of_three abc_log). vm_compute. reflexivity.
Defined.

(** C9: the netlist-file extractor returns the number of lines that start
    with [.names] when there is at least one, and nothing at all, never
    zero, when there is none or the file cannot be read; a netlist with
    three such lines gives 3. *)
Theorem count_luts_in_blif_spec :
  (forall blif_file,
     _count_luts_in_blif blif_file =
       match blif_file with
       | Unreadable => None
       | Content text =>
           match names_lines text with
           | O => None
           | S n => Some (Z.of_nat (S n))
           end
       end)
  /\ (forall blif_file, _count_luts_in_blif blif_file <> Some 0%Z)
  /\ names_lines three_luts_blif = 3%nat
  /\ _count_luts_in_blif (Content three_luts_blif) = Some 3%Z
  /\ names_lines no_luts_blif = 0%nat
  /\ _count_luts_in_blif (Content no_luts_blif) = None.
Proof.
  assert (forall blif_file,
     _count_luts_in_blif blif_file =
       match blif_file with
       | Unreadable => None
       | Content text =>
           match names_lines text with
           | O => None
           | S n => Some (Z.of_nat (S n))
           end
       end) as Hspec.
  { intros [|text]; [done|]. unfold _count_luts_in_blif. cbv zeta.
    rewrite findall_names_lines. by destruct (names_lines text). }
  split; [exact Hspec|]. split.
  - intros f. rewrite Hspec. destruct f as [|text]; [done|].
    destruct (names_lines text); done.
  - repeat split; vm_compute; reflexivity.
Qed.

(* ===================================================================== *)
(** * Properties of the flow runners                                     *)
(* ===================================================================== *)

Lemma stage_failed w t failed rc out err n r :
  subprocess_run w t = Exited rc out err -> rc <> 0%Z ->
  stage w t failed (n, r) =
    (Returned, (n, set_error_message (Some (failed +:+ err)) r)).
Proof.
  intros H Hrc. unfold stage. rewrite H. cbn [run_command].
  destruct (Z.eqb_spec rc 0) as [|_]; [done|]. reflexivity.
Qed.

Lemma stage_passed w t failed out err s :
  subprocess_run w t = Exited 0 out err ->
  stage w t failed s = (Next (out, err), s).
Proof. intros H. unfold stage. rewrite H. reflexivity. Qed.

(** A failing first stage ends the native flow with the error message as
    the only field that was written. *)
Lemma circt_verilog_failure w rc out err :
  subprocess_run w CirctVerilog = Exited rc out err -> rc <> 0%Z ->
  run_circt_synthesis w =
    set_error_message (Some ("circt-verilog failed: " +:+ err)) new_results.
Proof.
  intros H Hrc. unfold run_circt_synthesis, try_flow.
  unfold mbind at 1, run_bind at 1, bind at 1.
  by rewrite (stage_failed _ _ _ _ _ _ _ _ H Hrc).
Qed.

Lemma hybrid_verilog_failure w rc out err :
  subprocess_run w CirctVerilog = Exited rc out err -> rc <> 0%Z ->
  run_hybrid_synthesis w =
    set_error_message (Some ("circt-verilog failed: " +:+ err)) new_results.
Proof.
  intros H Hrc. unfold run_hybrid_synthesis, try_flow.
  unfold mbind at 1, run_bind at 1, bind at 1.
  by rewrite (stage_failed _ _ _ _ _ _ _ _ H Hrc).
Qed.

Lemma yosys_failure w script rc out err :
  create_script w = Ok script -> write_log w = Ok tt ->
  subprocess_run w Yosys = Exited rc out err -> rc <> 0%Z ->
  run_yosys_synthesis w =
    set_error_message (Some ("Yosys failed: " +:+ err)) new_results.
Proof.
  intros Hs Hw H Hrc. unfold run_yosys_synthesis, try_flow, yosys_tail.
  rewrite Hs, Hw, H. cbn [run_command].
  destruct (Z.eqb_spec rc 0) as [|_]; [done|]. reflexivity.
Qed.

(** The handler of a caught exception does record the elapsed time. *)
Lemma yosys_script_fault w e :
  create_script w = Fault e ->
  run_yosys_synthesis w =
    mkResults None None (Some (time_time w 1 - time_time w 0)%Q) false
      (Some ("Yosys synthesis error: " +:+ e)).
Proof.
  intros Hs. unfold run_yosys_synthesis, try_flow. by rewrite Hs.
Qed.

(** C1: a stage that exits with a non-zero status makes the runner return
    at once, and the result it returns carries no runtime: in each of the
    three runners [runtime] stays [None], although the handler of a caught
    exception does record the elapsed time ([yosys_script_fault]). *)
Theorem failed_stage_leaves_runtime_unset :
  run_circt_synthesis (world_of verilog_fails (Ok tt)) =
    mkResults None None None false
      (Some "circt-verilog failed: error: expected ';'")
  /\ run_yosys_synthesis (world_of yosys_fails (Ok tt)) =
       mkResults None None None false
         (Some "Yosys failed: ERROR: syntax error")
  /\ run_hybrid_synthesis (world_of yosys_fails (Ok tt)) =
       mkResults None None None false
         (Some "Yosys LUT mapping failed: ERROR: syntax error").
Proof. repeat split; vm_compute; reflexivity. Qed.

(** C4: when every stage of the Yosys flow or of the hybrid flow has
    succeeded and removing the temporary script then raises, the result
    has [success = true] together with an error message, so the invariant
    of flow results is broken.  The handler reads the clock once more, so
    the runtime of this result is the third reading minus the first
    (104 - 100 here). *)
Theorem script_removal_fault_breaks_invariant :
  run_yosys_synthesis script_gone_world =
    mkResults (Some 15%Z) (Some 3%Z) (Some 4%Q) true
      (Some "Yosys synthesis error: [Errno 2] No such file or directory: '/tmp/tmpk3v9.ys'")
  /\ ~ flow_invariant (run_yosys_synthesis script_gone_world)
  /\ ~ flow_invariant (run_hybrid_synthesis script_gone_world).
Proof.
  split; [vm_compute; reflexivity|].
  split; intros [_ H]; specialize (H eq_refl); vm_compute in H;
    discriminate H.
Qed.

(* ===================================================================== *)
(** * Properties of the comparator                                       *)
(* ===================================================================== *)

(** The entries of a metric are listed in the priority order. *)
Lemma present_priority {V} (metric : SynthesisResults -> option V) c y h :
  sublist (map fst (present metric (successful_flows c y h))) priority.
Proof.
  etrans; [apply present_names | apply successful_flows_names].
Qed.

Lemma present_NoDup {V} (metric : SynthesisResults -> option V) c y h :
  NoDup (map fst (present metric (successful_flows c y h))).
Proof.
  eapply sublist_NoDup; [apply priority_NoDup | apply present_priority].
Qed.

(** The names are distinct, so building the [*_all] dictionary from the
    sorted list keeps the list as it is. *)
Lemma dict_of_sorted {V} (ltb : V -> V -> bool)
    (metric : SynthesisResults -> option V) c y h :
  dict_of_pairs (sort_by_value ltb (present metric (successful_flows c y h)))
  = sort_by_value ltb (present metric (successful_flows c y h)).
Proof.
  apply dict_of_pairs_id.
  pose proof (Permutation_map fst
    (sort_by_value_perm ltb (present metric (successful_flows c y h))))
    as HP.
  rewrite HP. apply present_NoDup.
Qed.



Lemma Zsort_ascending l : ascending Z.ltb (sort_by_value Z.ltb l).
Proof.
  apply sort_by_value_ascending;
    eauto using Zltb_irrefl, Zltb_trans, Zltb_cotrans.
Qed.

Lemma Qsort_ascending l : ascending Qltb (sort_by_value Qltb l).
Proof.
  apply sort_by_value_ascending;
    eauto using Qltb_irrefl, Qltb_trans, Qltb_cotrans.
Qed.

(** In an ascending list the second entry is not smaller than the first. *)
Lemma ascending_second {V} (ltb : V -> V -> bool) b s r :
  ascending ltb (b :: s :: r) -> ltb (snd s) (snd b) = false.
Proof.
  intros H. apply StronglySorted_inv in H as [_ H].
  by apply Forall_inv in H.
Qed.

(** With fewer than two qualifying strategies the depth and the cell count
    get the marker and no ranking; the runtime gets no entry at all. *)
Lemma few_qualify c y h cmp :
  compare_results c y h = Ok cmp ->
  ((length (present timing_levels (successful_flows c y h)) < 2)%nat ->
     analysis cmp !! "timing_winner" = Some (VStr unable)
     /\ analysis cmp !! "timing_levels_all" = None
     /\ analysis cmp !! "timing_improvement" = None)
  /\ ((length (present lut_count (successful_flows c y h)) < 2)%nat ->
     analysis cmp !! "area_winner" = Some (VStr unable)
     /\ analysis cmp !! "lut_counts_all" = None
     /\ analysis cmp !! "area_improvement" = None)
  /\ ((length (present runtime (successful_flows c y h)) < 2)%nat ->
     analysis cmp !! "runtime_winner" = None
     /\ analysis cmp !! "runtimes_all" = None
     /\ analysis cmp !! "speedup" = None).
Proof.
  intros H. split; [|split]; intros Hl.
  - pose proof (timing_block _ _ _ _ H) as Hb. cbv zeta in Hb.
    destruct Hb as [[_ Hb]|(b & s & r & Hs & _)]; [done|].
    apply (f_equal length) in Hs. rewrite sort_by_value_length in Hs.
    simpl in Hs. lia.
  - pose proof (area_block _ _ _ _ H) as Hb. cbv zeta in Hb.
    destruct Hb as [[_ Hb]|(b & s & r & Hs & _)]; [done|].
    apply (f_equal length) in Hs. rewrite sort_by_value_length in Hs.
    simpl in Hs. lia.
  - pose proof (runtime_block _ _ _ _ H) as Hb. cbv zeta in Hb.
    destruct Hb as [[_ Hb]|(b & s & r & Hs & _)]; [done|].
    apply (f_equal length) in Hs. rewrite sort_by_value_length in Hs.
    simpl in Hs. lia.
Qed.

(** C3: when only one strategy succeeded, the analysis carries the marker
    ['Unable to compare'] for the depth and for the cell count, but nothing
    for the runtime: the key ['runtime_winner'] is missing. *)
Theorem runtime_winner_missing :
  compare_results deep_circt failed_flow None
    = Ok (comparison_of deep_circt failed_flow None)
  /\ analysis (comparison_of deep_circt failed_flow None) !! "timing_winner"
     = Some (VStr "Unable to compare")
  /\ analysis (comparison_of deep_circt failed_flow None) !! "area_winner"
     = Some (VStr "Unable to compare")
  /\ analysis (comparison_of deep_circt failed_flow None) !! "runtime_winner"
     = None.
Proof. repeat split; vm_compute; reflexivity. Qed.



(** The tie of the specification: [{A: 5, B: 5}] gives [A]. *)
Lemma tie_goes_to_circt :
  analysis (comparison_of tie_circt tie_yosys None) !! "timing_winner"
    = Some (VStr "CIRCT")
  /\ analysis (comparison_of tie_circt tie_yosys None) !! "area_winner"
     = Some (VStr "CIRCT")
  /\ analysis (comparison_of tie_circt tie_yosys None) !! "runtime_winner"
     = Some (VStr "CIRCT").
Proof. repeat split; vm_compute; reflexivity. Qed.

(** C8, as stated, does not hold: with CIRCT at depth 10 and Yosys+ABC at
    depth 8 the mapping lists Yosys+ABC first. *)
Lemma levels_all_not_in_supplied_order :
  ~ (forall c y h cmp m,
       compare_results c y h = Ok cmp ->
       analysis cmp !! "timing_levels_all" = Some (VIntMap m) ->
       m = present timing_levels (successful_flows c y h)).
Proof.
  intros H.
  specialize (H deep_circt shallow_yosys None
                (comparison_of deep_circt shallow_yosys None)
                [("Yosys+ABC", 8%Z); ("CIRCT", 10%Z)]).
  assert (compare_results deep_circt shallow_yosys None
            = Ok (comparison_of deep_circt shallow_yosys None)) as H1
    by (vm_compute; reflexivity).
  assert (analysis (comparison_of deep_circt shallow_yosys None)
            !! "timing_levels_all"
          = Some (VIntMap [("Yosys+ABC", 8%Z); ("CIRCT", 10%Z)])) as H2
    by (vm_compute; reflexivity).
  specialize (H H1 H2). vm_compute in H. discriminate H.
Qed.

(** C8, amended: for every metric with a ranking, the strategy-to-value
    mapping of the analysis lists the qualifying strategies in the order
    of the ascending stable sort used for the ranking: it is the sorted
    list, a permutation of the supplied entries in ascending order of
    value. *)
Theorem all_mappings_are_sorted c y h cmp :
  compare_results c y h = Ok cmp ->
  (forall m, analysis cmp !! "timing_levels_all" = Some (VIntMap m) ->
     m = sort_by_value Z.ltb (present timing_levels (successful_flows c y h))
     /\ Permutation m (present timing_levels (successful_flows c y h))
     /\ ascending Z.ltb m)
  /\ (forall m, analysis cmp !! "lut_counts_all" = Some (VIntMap m) ->
     m = sort_by_value Z.ltb (present lut_count (successful_flows c y h))
     /\ Permutation m (present lut_count (successful_flows c y h))
     /\ ascending Z.ltb m)
  /\ (forall m, analysis cmp !! "runtimes_all" = Some (VFloatMap m) ->
     m = sort_by_value Qltb (present runtime (successful_flows c y h))
     /\ Permutation m (present runtime (successful_flows c y h))
     /\ ascending Qltb m).
Proof.
  intros H. split; [|split]; intros m Hm.
  - pose proof (timing_block _ _ _ _ H) as Hb. cbv zeta in Hb.
    destruct Hb as [(_ & _ & Hn & _)|(b & s & r & Hs & _ & Ha & _)];
      [congruence|].
    rewrite Ha in Hm. injection Hm as <-. rewrite <- Hs, dict_of_sorted.
    split; [done|]. split; [apply sort_by_value_perm|apply Zsort_ascending].
  - pose proof (area_block _ _ _ _ H) as Hb. cbv zeta in Hb.
    destruct Hb as [(_ & _ & Hn & _)|(b & s & r & Hs & _ & Ha & _)];
      [congruence|].
    rewrite Ha in Hm. injection Hm as <-. rewrite <- Hs, dict_of_sorted.
    split; [done|]. split; [apply sort_by_value_perm|apply Zsort_ascending].
  - pose proof (runtime_block _ _ _ _ H) as Hb. cbv zeta in Hb.
    destruct Hb as [(_ & _ & Hn & _)|(b & s & r & Hs & _ & _ & Ha & _)];
      [congruence|].
    rewrite Ha in Hm. injection Hm as <-. rewrite <- Hs, dict_of_sorted.
    split; [done|]. split; [apply sort_by_value_perm|apply Qsort_ascending].
Qed.

Lemma all_mappings_are_sorted_witness :
  compare_results deep_circt shallow_yosys None
    = Ok (comparison_of deep_circt shallow_yosys None)
  /\ forall m,
       analysis (comparison_of deep_circt shallow_yosys None)
         !! "timing_levels_all" = Some (VIntMap m) ->
       m = sort_by_value Z.ltb
             (present timing_levels
                (successful_flows deep_circt shallow_yosys None))
       /\ Permutation m
            (present timing_levels
               (successful_flows deep_circt shallow_yosys None))
       /\ ascending Z.ltb m.
Proof.
  split; [vm_compute; reflexivity|].
  apply (all_mappings_are_sorted deep_circt shallow_yosys None
           (comparison_of deep_circt shallow_yosys None)).
  vm_compute; reflexivity.
Defined.

(** C10: a depth or cell-count improvement in the analysis is never
    negative, and a speedup is at least 1 when the qualifying runtimes are
    strictly positive. *)
Theorem margins_are_nonnegative c y h cmp :
  compare_results c y h = Ok cmp ->
  (forall v, analysis cmp !! "timing_improvement" = Some (VInt v) ->
     (0 <= v)%Z)
  /\ (forall v, analysis cmp !! "area_improvement" = Some (VInt v) ->
     (0 <= v)%Z)
  /\ (forall s, analysis cmp !! "speedup" = Some (VFloat s) ->
     Forall (fun e => (0 < snd e)%Q)
       (present runtime (successful_flows c y h)) ->
     (1 <= s)%Q).
Proof.
  intros H. split; [|split].
  - intros v Hv.
    pose proof (timing_block _ _ _ _ H) as Hb. cbv zeta in Hb.
    destruct Hb as [(_ & _ & _ & Hn)|(b & s & r & Hs & _ & _ & Hi)];
      [congruence|].
    rewrite Hi in Hv. injection Hv as <-.
    pose proof (Zsort_ascending
      (present timing_levels (successful_flows c y h))) as Ha.
    rewrite Hs in Ha. apply ascending_second in Ha.
    apply Z.ltb_ge in Ha. lia.
  - intros v Hv.
    pose proof (area_block _ _ _ _ H) as Hb. cbv zeta in Hb.
    destruct Hb as [(_ & _ & _ & Hn)|(b & s & r & Hs & _ & _ & Hi)];
      [congruence|].
    rewrite Hi in Hv. injection Hv as <-.
    pose proof (Zsort_ascending
      (present lut_count (successful_flows c y h))) as Ha.
    rewrite Hs in Ha. apply ascending_second in Ha.
    apply Z.ltb_ge in Ha. lia.
  - intros q Hq Hpos.
    pose proof (runtime_block _ _ _ _ H) as Hb. cbv zeta in Hb.
    destruct Hb as [(_ & _ & _ & Hn)|(b & s & r & Hs & _ & _ & _ & Hi)];
      [congruence|].
    rewrite Hi in Hq. injection Hq as <-.
    pose proof (Qsort_ascending
      (present runtime (successful_flows c y h))) as Ha.
    rewrite Hs in Ha. apply ascending_second in Ha.
    apply Qltb_ge in Ha.
    assert (b ∈ present runtime (successful_flows c y h)) as Hin.
    { rewrite <- (sort_by_value_perm Qltb), Hs. constructor. }
    rewrite Forall_forall in Hpos. specialize (Hpos b Hin). simpl in Hpos.
    apply Qle_shift_div_l; [done|]. by rewrite Qmult_1_l.
Qed.

Lemma margins_are_nonnegative_witness :
  compare_results deep_circt shallow_yosys None
    = Ok (comparison_of deep_circt shallow_yosys None)
  /\ (forall v,
        analysis (comparison_of deep_circt shallow_yosys None)
          !! "timing_improvement" = Some (VInt v) -> (0 <= v)%Z).
Proof.
  split; [vm_compute; reflexivity|].
  apply (margins_are_nonnegative deep_circt shallow_yosys None
           (comparison_of deep_circt shallow_yosys None)).
  vm_compute; reflexivity.
Defined.

(* ===================================================================== *)
(** * Properties of the batch driver                                     *)
(* ===================================================================== *)

(** A comparison that processing a file yields comes from the comparator,
    applied to the results of the three flows. *)
Lemma run_comparison_ok f cmp :
  (make_comparator f;; run_comparison f) = Ok cmp ->
  compare_results (run_circt_synthesis (circt_world f))
    (run_yosys_synthesis (yosys_world f))
    (Some (run_hybrid_synthesis (hybrid_world f))) = Ok cmp.
Proof.
  unfold mbind, fallible_bind, run_comparison. cbv zeta.
  destruct (make_comparator f) as [[]|e0]; [|discriminate].
  destruct (compare_results _ _ _) as [cmp'|e1]; [|discriminate].
  unfold mbind, fallible_bind.
  destruct (save_report f) as [[]|e2]; [|discriminate].
  intros [= <-]. reflexivity.
Qed.

(** The names the comparator reports are names of strategies. *)
Lemma head_name_in_priority {V} (ltb : V -> V -> bool)
    (metric : SynthesisResults -> option V) c y h b rest :
  sort_by_value ltb (present metric (successful_flows c y h)) = b :: rest ->
  fst b ∈ priority.
Proof.
  intros Hs.
  apply (elem_of_sublist (map fst (present metric (successful_flows c y h))));
    [|apply present_priority].
  apply list_elem_of_In, in_map, list_elem_of_In.
  rewrite <- (sort_by_value_perm ltb), Hs. constructor.
Qed.

Lemma priority_not_tie name :
  name ∈ priority -> is_name (VStr name) "Tie" = false.
Proof.
  unfold priority. intros H.
  apply elem_of_cons in H as [->|H]; [reflexivity|].
  apply elem_of_cons in H as [->|H]; [reflexivity|].
  apply elem_of_cons in H as [->|H]; [reflexivity|].
  by apply elem_of_nil in H.
Qed.

(** The comparator never reports the winner ["Tie"]. *)
Lemma winners_not_tie c y h cmp :
  compare_results c y h = Ok cmp ->
  is_name (get_winner (analysis cmp) "timing_winner") "Tie" = false
  /\ is_name (get_winner (analysis cmp) "area_winner") "Tie" = false.
Proof.
  intros H. unfold get_winner. split.
  - pose proof (timing_block _ _ _ _ H) as Hb. cbv zeta in Hb.
    destruct Hb as [(_ & Hw & _)|(b & s & r & Hs & Hw & _)]; rewrite Hw.
    + reflexivity.
    + apply priority_not_tie. by eapply head_name_in_priority.
  - pose proof (area_block _ _ _ _ H) as Hb. cbv zeta in Hb.
    destruct Hb as [(_ & Hw & _)|(b & s & r & Hs & Hw & _)]; rewrite Hw.
    + reflexivity.
    + apply priority_not_tie. by eapply head_name_in_priority.
Qed.

Lemma tally_timing_keeps w s :
  successful_comparisons (tally_timing w s) = successful_comparisons s
  /\ failed_comparisons (tally_timing w s) = failed_comparisons s
  /\ ties_area (tally_timing w s) = ties_area s
  /\ (is_name w "Tie" = false ->
      ties_timing (tally_timing w s) = ties_timing s).
Proof.
  unfold tally_timing.
  destruct (is_name w "CIRCT"), (is_name w "Yosys+ABC"), (is_name w "Tie");
    repeat split; intros; try reflexivity; discriminate.
Qed.

Lemma tally_area_keeps w s :
  successful_comparisons (tally_area w s) = successful_comparisons s
  /\ failed_comparisons (tally_area w s) = failed_comparisons s
  /\ ties_timing (tally_area w s) = ties_timing s
  /\ (is_name w "Tie" = false ->
      ties_area (tally_area w s) = ties_area s).
Proof.
  unfold tally_area.
  destruct (is_name w "CIRCT"), (is_name w "Yosys+ABC"), (is_name w "Tie");
    repeat split; intros; try reflexivity; discriminate.
Qed.

(** A fully successful file adds one to [successful_comparisons] and
    leaves [failed_comparisons] alone. *)
Lemma count_success_counts cmp s :
  successful_comparisons (count_success cmp s)
    = (successful_comparisons s + 1)%Z
  /\ failed_comparisons (count_success cmp s) = failed_comparisons s.
Proof.
  unfold count_success. cbv zeta.
  set (w1 := get_winner (analysis cmp) "timing_winner").
  set (w2 := get_winner (analysis cmp) "area_winner").
  destruct (tally_timing_keeps w1 (count_comparison s)) as (T1 & T2 & _).
  destruct (tally_area_keeps w2 (tally_timing w1 (count_comparison s)))
    as (A1 & A2 & _).
  unfold add_times.
  cbn [successful_comparisons failed_comparisons].
  rewrite A1, A2, T1, T2. split; reflexivity.
Qed.

Lemma count_success_ties cmp s :
  is_name (get_winner (analysis cmp) "timing_winner") "Tie" = false ->
  is_name (get_winner (analysis cmp) "area_winner") "Tie" = false ->
  ties_timing (count_success cmp s) = ties_timing s
  /\ ties_area (count_success cmp s) = ties_area s.
Proof.
  intros H1 H2. unfold count_success. cbv zeta.
  set (w1 := get_winner (analysis cmp) "timing_winner") in *.
  set (w2 := get_winner (analysis cmp) "area_winner") in *.
  destruct (tally_timing_keeps w1 (count_comparison s)) as (_ & _ & T3 & T4).
  destruct (tally_area_keeps w2 (tally_timing w1 (count_comparison s)))
    as (_ & _ & A3 & A4).
  unfold add_times. cbn [ties_timing ties_area].
  rewrite A3, (A4 H2), T3, (T4 H1). split; reflexivity.
Qed.

(** The handler of the loop: a file whose processing raises gets an error
    entry and counts as one failure; nothing else changes. *)
Lemma process_file_fault b file f e :
  faults f e ->
  process_file b (file, f) =
    mkBatch (input_path b) (total_files b)
      (<[path_name file := Errored file e]> (results b))
      (count_failure (summary b)).
Proof.
  unfold faults, process_file. cbv beta iota zeta. intros ->. reflexivity.
Qed.

Lemma process_file_ok b file f cmp :
  (make_comparator f;; run_comparison f) = Ok cmp ->
  process_file b (file, f) =
    mkBatch (input_path b) (total_files b)
      (<[path_name file :=
           Compared file (circt cmp) (yosys cmp) (analysis cmp)]>
         (results b))
      (if success (circt cmp) && success (yosys cmp)
       then count_success cmp (summary b)
       else count_failure (summary b)).
Proof.
  unfold process_file. cbv beta iota zeta. intros ->. reflexivity.
Qed.

Lemma process_file_ties b item :
  ties_timing (summary b) = 0%Z -> ties_area (summary b) = 0%Z ->
  ties_timing (summary (process_file b item)) = 0%Z
  /\ ties_area (summary (process_file b item)) = 0%Z.
Proof.
  intros Ht Ha. destruct item as [file f].
  destruct (make_comparator f;; run_comparison f) as [cmp|e] eqn:E.
  - rewrite (process_file_ok _ _ _ _ E). cbn [summary].
    destruct (success (circt cmp) && success (yosys cmp)).
    + apply run_comparison_ok, winners_not_tie in E as [W1 W2].
      destruct (count_success_ties cmp (summary b) W1 W2) as [-> ->].
      by split.
    + by split.
  - rewrite (process_file_fault _ _ _ _ E). by split.
Qed.

Lemma fold_process_ties files : forall b,
  ties_timing (summary b) = 0%Z -> ties_area (summary b) = 0%Z ->
  ties_timing (summary (fold_left process_file files b)) = 0%Z
  /\ ties_area (summary (fold_left process_file files b)) = 0%Z.
Proof.
  induction files as [|item files IH]; intros b Ht Ha; [by split|].
  cbn [fold_left]. destruct (process_file_ties b item Ht Ha).
  by apply IH.
Qed.

(** C6: in every batch summary the batch driver returns, the tie tallies
    of the depth and of the cell count are zero. *)
Theorem ties_always_zero path files save_batch b :
  run_batch_comparison path files save_batch = Ok b ->
  ties_timing (summary b) = 0%Z /\ ties_area (summary b) = 0%Z.
Proof.
  unfold run_batch_comparison. destruct files as [|item files]; [discriminate|].
  unfold mbind, fallible_bind.
  destruct save_batch as [[]|e]; [|discriminate].
  intros [= <-]. apply (fold_process_ties (item :: files)); reflexivity.
Qed.

Lemma ties_always_zero_witness :
  run_batch_comparison "bench" three_files (Ok tt)
    = Ok (batch_of "bench" three_files)
  /\ ties_timing (summary (batch_of "bench" three_files)) = 0%Z
  /\ ties_area (summary (batch_of "bench" three_files)) = 0%Z.
Proof.
  split; [vm_compute; reflexivity|].
  apply (ties_always_zero "bench" three_files (Ok tt)).
  vm_compute; reflexivity.
Defined.

Lemma Ok_inj {A} (a b : A) : Ok a = Ok b -> a = b.
Proof. by intros [= ->]. Qed.

(** C7, as stated, does not hold: that only the second of three files
    raises a fault does not make [failed_comparisons] equal to 1.  In the
    batch [a.sv], [b.sv], [c.sv], where processing [b.sv] raises and, on
    [a.sv], Yosys exits with status 1 without any exception,
    [failed_comparisons] is 2: a file whose CIRCT flow or Yosys flow
    failed counts as a failed comparison too. *)
Lemma batch_isolation_not_by_faults_alone :
  ~ (forall path file1 f1 c1 file2 f2 e file3 f3 c3,
       (make_comparator f1;; run_comparison f1) = Ok c1 ->
       faults f2 e ->
       (make_comparator f3;; run_comparison f3) = Ok c3 ->
       exists b,
         run_batch_comparison path
           [(file1, f1); (file2, f2); (file3, f3)] (Ok tt) = Ok b
         /\ results b !! path_name file1 =
              Some (Compared file1 (circt c1) (yosys c1) (analysis c1))
         /\ results b !! path_name file3 =
              Some (Compared file3 (circt c3) (yosys c3) (analysis c3))
         /\ failed_comparisons (summary b) = 1%Z).
Proof.
  intros H.
  destruct (H "bench"
              "bench/a.sv" circt_only_run
              (comparison_of (run_circt_synthesis good_world)
                 (run_yosys_synthesis (world_of yosys_fails (Ok tt)))
                 (Some (run_hybrid_synthesis good_world)))
              "bench/b.sv" faulty_run
              "[Errno 13] Permission denied: 'build/b'"
              "bench/c.sv" good_run
              (comparison_of (run_circt_synthesis good_world)
                 (run_yosys_synthesis good_world)
                 (Some (run_hybrid_synthesis good_world))))
    as (b & Hb & _ & _ & Hf); [vm_compute; reflexivity..|].
  assert (run_batch_comparison "bench"
            [("bench/a.sv", circt_only_run); ("bench/b.sv", faulty_run);
             ("bench/c.sv", good_run)] (Ok tt)
          = Ok (batch_of "bench"
                  [("bench/a.sv", circt_only_run); ("bench/b.sv", faulty_run);
                   ("bench/c.sv", good_run)])) as Hrun
    by (vm_compute; reflexivity).
  rewrite Hrun in Hb. apply Ok_inj in Hb. subst b.
  vm_compute in Hf. discriminate Hf.
Qed.

(** The same batch with two files of one base name: the entry of the
    first file is overwritten by that of the third. *)
Lemma batch_isolation_not_with_equal_names :
  results (batch_of "bench"
             [("rtl/top.sv", good_run); ("bench/b.sv", faulty_run);
              ("tb/top.sv", circt_only_run)]) !! "top.sv"
  = Some (Compared "tb/top.sv" (run_circt_synthesis good_world)
            (run_yosys_synthesis (world_of yosys_fails (Ok tt)))
            (analysis
               (comparison_of (run_circt_synthesis good_world)
                  (run_yosys_synthesis (world_of yosys_fails (Ok tt)))
                  (Some (run_hybrid_synthesis good_world))))).
Proof. vm_compute. reflexivity. Qed.

(** C7, amended: a fault raised while processing one file is caught: the
    file gets an error entry, [failed_comparisons] grows by one and
    nothing else changes; the driver goes on with the remaining files;
    and in a batch of three files with pairwise distinct base names, of
    which the first and the third go through with the CIRCT flow and the
    Yosys flow both successful and the second raises, the results of the
    first and the third file are there and [failed_comparisons] is 1. *)
Theorem batch_isolation :
  (forall b file f e,
     faults f e ->
     process_file b (file, f) =
       mkBatch (input_path b) (total_files b)
         (<[path_name file := Errored file e]> (results b))
         (count_failure (summary b))
     /\ failed_comparisons (summary (process_file b (file, f)))
        = (failed_comparisons (summary b) + 1)%Z)
  /\ (forall path before file f after,
        run_batch_comparison path (before ++ (file, f) :: after) (Ok tt) =
          Ok (fold_left process_file after
                (process_file
                   (fold_left process_file before
                      (new_batch path (before ++ (file, f) :: after)))
                   (file, f))))
  /\ (forall path file1 f1 c1 file2 f2 e file3 f3 c3,
        completes f1 c1 -> faults f2 e -> completes f3 c3 ->
        path_name file1 <> path_name file2 ->
        path_name file1 <> path_name file3 ->
        path_name file2 <> path_name file3 ->
        exists b,
          run_batch_comparison path
            [(file1, f1); (file2, f2); (file3, f3)] (Ok tt) = Ok b
          /\ results b !! path_name file1 =
               Some (Compared file1 (circt c1) (yosys c1) (analysis c1))
          /\ results b !! path_name file2 = Some (Errored file2 e)
          /\ results b !! path_name file3 =
               Some (Compared file3 (circt c3) (yosys c3) (analysis c3))
          /\ failed_comparisons (summary b) = 1%Z
          /\ successful_comparisons (summary b) = 2%Z).
Proof.
  split; [|split].
  - intros b file f e Hf. rewrite (process_file_fault _ _ _ _ Hf).
    split; reflexivity.
  - intros path before file f after. unfold run_batch_comparison, new_batch.
    destruct (before ++ (file, f) :: after) as [|item files] eqn:E;
      [by destruct before|].
    rewrite <- E. unfold mbind, fallible_bind.
    by rewrite fold_left_app.
  - intros path file1 f1 c1 file2 f2 e file3 f3 c3
      (E1 & S1 & S1') Hf (E3 & S3 & S3') N12 N13 N23.
    exists (process_file
              (process_file
                 (process_file
                    (new_batch path [(file1, f1); (file2, f2); (file3, f3)])
                    (file1, f1))
                 (file2, f2))
              (file3, f3)).
    split; [reflexivity|].
    rewrite (process_file_ok _ _ _ _ E3), (process_file_fault _ _ _ _ Hf),
      (process_file_ok _ _ _ _ E1).
    rewrite S1, S1', S3, S3'. unfold new_batch. cbn [andb results summary].
    repeat split.
    + rewrite lookup_insert_ne by done. rewrite lookup_insert_ne by done.
      apply lookup_insert_eq.
    + rewrite lookup_insert_ne by done. apply lookup_insert_eq.
    + apply lookup_insert_eq.
    + destruct (count_success_counts c3
                  (count_failure (count_success c1 new_summary)))
        as [_ ->].
      cbn [count_failure failed_comparisons].
      destruct (count_success_counts c1 new_summary) as [_ ->]. reflexivity.
    + destruct (count_success_counts c3
                  (count_failure (count_success c1 new_summary)))
        as [-> _].
      cbn [count_failure successful_comparisons].
      destruct (count_success_counts c1 new_summary) as [-> _]. reflexivity.
Qed.

Lemma batch_isolation_witness :
  completes good_run
    (comparison_of (run_circt_synthesis good_world)
       (run_yosys_synthesis good_world)
       (Some (run_hybrid_synthesis good_world)))
  /\ faults faulty_run "[Errno 13] Permission denied: 'build/b'"
  /\ exists b,
       run_batch_comparison "bench" three_files (Ok tt) = Ok b
       /\ results b !! "a.sv" =
            Some (Compared "bench/a.sv" (run_circt_synthesis good_world)
                    (run_yosys_synthesis good_world)
                    (analysis
                       (comparison_of (run_circt_synthesis good_world)
                          (run_yosys_synthesis good_world)
                          (Some (run_hybrid_synthesis good_world)))))
       /\ results b !! "b.sv" =
            Some (Errored "bench/b.sv"
                    "[Errno 13] Permission denied: 'build/b'")
       /\ failed_comparisons (summary b) = 1%Z.
Proof.
  assert (completes good_run
    (comparison_of (run_circt_synthesis good_world)
       (run_yosys_synthesis good_world)
       (Some (run_hybrid_synthesis good_world)))) as Hc
    by (repeat split; vm_compute; reflexivity).
  assert (faults faulty_run "[Errno 13] Permission denied: 'build/b'") as Hf
    by (vm_compute; reflexivity).
  split; [exact Hc|]. split; [exact Hf|].
  destruct (proj2 (proj2 batch_isolation) "bench"
              "bench/a.sv" good_run _ "bench/b.sv" faulty_run _
              "bench/c.sv" good_run _ Hc Hf Hc)
    as (b & Hb & H1 & H2 & _ & H4 & _);
    [vm_compute; discriminate..|].
  exists b. repeat split; assumption.
Defined.

(* ===================================================================== *)
(** * Further properties of the flow runners                             *)
(* ===================================================================== *)

(** The native flow has nothing after its success flag, so its result
    never has the late form, whatever the third reading of the clock. *)
Lemma run_circt_shape w late :
  flow_shape (elapsed w) late (run_circt_synthesis w).
Proof. run_start. repeat run_step. all: run_fields; constructor. Qed.

Lemma run_yosys_shape w :
  flow_shape (elapsed w) (overrun w) (run_yosys_synthesis w).
Proof. run_start. repeat run_step. all: run_fields; constructor. Qed.

Lemma run_hybrid_shape w :
  flow_shape (elapsed w) (overrun w) (run_hybrid_synthesis w).
Proof. run_start. repeat run_step. all: run_fields; constructor. Qed.

Lemma shape_reports_runtime seconds late r :
  flow_shape seconds late r -> reports_runtime seconds late r.
Proof.
  destruct 1; split; cbn; intros; try done.
  - right. by split.
  - left. by split.
Qed.

Lemma shape_reports_reason seconds late r :
  flow_shape seconds late r -> reports_reason r.
Proof. destruct 1; split; cbn; intros; try done; eauto. Qed.

Lemma shape_has_runtime seconds late r :
  flow_shape seconds late r -> success r = true -> runtime r <> None.
Proof. by destruct 1. Qed.

(** In every world, each of the three runners returns a result in which
    success comes with a runtime and a missing runtime means a failure
    that reports no metric.  The runtime of a success is the time up to
    the second reading of the clock; only when the Yosys flow or the
    hybrid flow raises after its success flag is set (the result then has
    an error message too) the handler overwrites it with the time up to
    the third reading.  The native flow cannot raise there. *)
Theorem runners_report_runtime w :
  (success (run_circt_synthesis w) = true ->
   runtime (run_circt_synthesis w) = Some (elapsed w))
  /\ reports_runtime (elapsed w) (overrun w) (run_circt_synthesis w)
  /\ reports_runtime (elapsed w) (overrun w) (run_yosys_synthesis w)
  /\ reports_runtime (elapsed w) (overrun w) (run_hybrid_synthesis w).
Proof.
  split; [|split; [|split]].
  - intros Hs.
    destruct (shape_reports_runtime _ _ _ (run_circt_shape w (elapsed w)))
      as [H _].
    by destruct (H Hs) as [[_ ?]|[_ ?]].
  - apply shape_reports_runtime, run_circt_shape.
  - apply shape_reports_runtime, run_yosys_shape.
  - apply shape_reports_runtime, run_hybrid_shape.
Qed.

(** In every world, each of the three runners gives a failure a reason: a
    result with [success = false] has an error message, and a result
    without an error message is a success. *)
Theorem runners_report_reason w :
  reports_reason (run_circt_synthesis w)
  /\ reports_reason (run_yosys_synthesis w)
  /\ reports_reason (run_hybrid_synthesis w).
Proof.
  split; [|split].
  - apply (shape_reports_reason (elapsed w) (overrun w)), run_circt_shape.
  - apply (shape_reports_reason (elapsed w) (overrun w)), run_yosys_shape.
  - apply (shape_reports_reason (elapsed w) (overrun w)), run_hybrid_shape.
Qed.

(** The native flow keeps the invariant of flow results in every world:
    nothing that can raise comes between its metrics and its success
    flag, and nothing at all comes after the flag. *)
Theorem run_circt_invariant w : flow_invariant (run_circt_synthesis w).
Proof.
  run_start. repeat run_step.
  all: run_fields; split; [intros; split|intros]; congruence.
Qed.

(** The Yosys flow and the hybrid flow keep the invariant of flow results
    whenever looking for the netlist file and removing the temporary
    script do not raise. *)
Theorem yosys_tail_invariant w b :
  blif_exists w = Ok b -> unlink_script w = Ok tt ->
  flow_invariant (run_yosys_synthesis w)
  /\ flow_invariant (run_hybrid_synthesis w).
Proof.
  intros Hb Hu. split.
  - run_start. rewrite Hu, Hb. cbv beta iota zeta. repeat run_step.
    all: run_fields; split; [intros; split|intros]; congruence.
  - run_start. rewrite Hu, Hb. cbv beta iota zeta. repeat run_step.
    all: run_fields; split; [intros; split|intros]; congruence.
Qed.

Lemma yosys_tail_invariant_witness :
  flow_invariant (run_yosys_synthesis good_world)
  /\ flow_invariant (run_hybrid_synthesis good_world).
Proof.
  apply (yosys_tail_invariant good_world true); reflexivity.
Defined.

(** When the first tool cannot be started or exits with a non-zero
    status, the native flow and the hybrid flow stop there: the result is
    a failure whose message is the label of the stage followed by the
    text [run_command] returned, whatever the rest of the world holds. *)
Theorem first_stage_fails_fast w rc out err :
  run_command (subprocess_run w CirctVerilog) = (rc, out, err) ->
  rc <> 0%Z ->
  run_circt_synthesis w =
    mkResults None None None false (Some ("circt-verilog failed: " +:+ err))
  /\ run_hybrid_synthesis w =
    mkResults None None None false (Some ("circt-verilog failed: " +:+ err)).
Proof.
  intros E Hrc. split.
  - run_start. rewrite E. cbv beta iota zeta.
    destruct (Z.eqb_spec rc 0); [contradiction|]. reflexivity.
  - run_start. rewrite E. cbv beta iota zeta.
    destruct (Z.eqb_spec rc 0); [contradiction|]. reflexivity.
Qed.

Lemma first_stage_fails_fast_witness :
  run_circt_synthesis no_verilog_world =
    mkResults None None None false
      (Some "circt-verilog failed: Command not found: [Errno 2] No such file or directory: 'circt-verilog'")
  /\ run_hybrid_synthesis no_verilog_world =
    mkResults None None None false
      (Some "circt-verilog failed: Command not found: [Errno 2] No such file or directory: 'circt-verilog'").
Proof.
  apply (first_stage_fails_fast no_verilog_world (-1)%Z ""
           "Command not found: [Errno 2] No such file or directory: 'circt-verilog'");
    [reflexivity|discriminate].
Defined.

(** A flow whose tools all exit with status 0 succeeds even when none of
    the files it reads its metrics from exists: the result is a success
    with the elapsed time and without any metric. *)
Theorem missing_outputs_are_not_failures w script :
  (forall t, exists out err,
     run_command (subprocess_run w t) = (0%Z, out, err)) ->
  create_script w = Ok script -> write_log w = Ok tt ->
  unlink_script w = Ok tt ->
  json_exists w = Ok false -> log_exists w = Ok false ->
  blif_exists w = Ok false ->
  run_circt_synthesis w = mkResults None None (Some (elapsed w)) true None
  /\ run_yosys_synthesis w = mkResults None None (Some (elapsed w)) true None
  /\ run_hybrid_synthesis w
     = mkResults None None (Some (elapsed w)) true None.
Proof.
  intros Ht Es Ew Eu Ej El Eb.
  destruct (Ht CirctVerilog) as (o1 & e1 & E1).
  destruct (Ht CirctSynth) as (o2 & e2 & E2).
  destruct (Ht CirctTranslate) as (o3 & e3 & E3).
  destruct (Ht Yosys) as (o4 & e4 & E4).
  split; [|split]; run_start;
    rewrite ?E1, ?E2, ?E3, ?E4, ?Es, ?Ew, ?Eu, ?Ej, ?El, ?Eb; reflexivity.
Qed.

Lemma missing_outputs_are_not_failures_witness :
  run_circt_synthesis bare_world = mkResults None None (Some 2%Q) true None
  /\ run_yosys_synthesis bare_world
     = mkResults None None (Some 2%Q) true None
  /\ run_hybrid_synthesis bare_world
     = mkResults None None (Some 2%Q) true None.
Proof.
  apply (missing_outputs_are_not_failures bare_world "/tmp/tmpk3v9.ys");
    try reflexivity.
  intros []; eexists _, _; reflexivity.
Defined.

(** When the Yosys flow goes through, its depth is read off the text the
    flow itself wrote to the log file, standard output followed by the
    standard-error section, and its cell count off the netlist file. *)
Theorem yosys_success_reads_transcript w script out err :
  create_script w = Ok script ->
  run_command (subprocess_run w Yosys) = (0%Z, out, err) ->
  write_log w = Ok tt ->
  log_exists w = Ok true -> log_readable w = true ->
  blif_exists w = Ok true ->
  unlink_script w = Ok tt ->
  run_yosys_synthesis w =
    mkResults (_parse_yosys_abc_levels (Content (log_text out err)))
      (_count_luts_in_blif (blif_content w))
      (Some (elapsed w)) true None.
Proof.
  intros Es Ey Ew El Er Eb Eu. run_start.
  rewrite Es, Ey, Ew, El, Eb, Eu. unfold read_back. rewrite Er. reflexivity.
Qed.

Lemma yosys_success_reads_transcript_witness :
  run_yosys_synthesis good_world =
    mkResults (_parse_yosys_abc_levels (Content (log_text abc_log "")))
      (_count_luts_in_blif (blif_content good_world))
      (Some (elapsed good_world)) true None.
Proof.
  apply (yosys_success_reads_transcript good_world "/tmp/tmpk3v9.ys"
           abc_log ""); reflexivity.
Defined.

(* ===================================================================== *)
(** * When a flow succeeds                                               *)
(* ===================================================================== *)

(** The native flow succeeds exactly when both of its tools exit with
    status 0 and looking for the JSON report does not raise; what the
    report holds, and whether it exists, does not matter. *)
Theorem circt_success_characterised w :
  succeeds_iff
    (exit_status w CirctVerilog = 0%Z /\ exit_status w CirctSynth = 0%Z
     /\ exists b, json_exists w = Ok b)
    (run_circt_synthesis w).
Proof.
  unfold exit_status. run_start. repeat run_step. all: success_finish.
Qed.

(** The Yosys flow succeeds exactly when the script can be created, the
    log can be written, Yosys exits with status 0 and looking for the log
    and for the netlist does not raise; a fault in removing the script
    does not take the success away. *)
Theorem yosys_success_characterised w :
  succeeds_iff
    ((exists script, create_script w = Ok script)
     /\ write_log w = Ok tt /\ exit_status w Yosys = 0%Z
     /\ (exists b, log_exists w = Ok b)
     /\ (exists b, blif_exists w = Ok b))
    (run_yosys_synthesis w).
Proof.
  unfold exit_status. run_start. repeat run_step. all: success_finish.
Qed.

(** The hybrid flow succeeds exactly when the three CIRCT tools exit with
    status 0 and the Yosys part meets the conditions of the Yosys flow. *)
Theorem hybrid_success_characterised w :
  succeeds_iff
    (exit_status w CirctVerilog = 0%Z /\ exit_status w CirctSynth = 0%Z
     /\ exit_status w CirctTranslate = 0%Z
     /\ (exists script, create_script w = Ok script)
     /\ write_log w = Ok tt /\ exit_status w Yosys = 0%Z
     /\ (exists b, log_exists w = Ok b)
     /\ (exists b, blif_exists w = Ok b))
    (run_hybrid_synthesis w).
Proof.
  unfold exit_status. run_start. repeat run_step. all: success_finish.
Qed.

(** The log is written before the exit status of Yosys is looked at: when
    writing it raises, the flow reports that exception, with the elapsed
    time, whatever the exit status of Yosys was. *)
Theorem log_fault_hides_yosys_status w script e :
  create_script w = Ok script -> write_log w = Fault e ->
  run_yosys_synthesis w =
    mkResults None None (Some (elapsed w)) false
      (Some ("Yosys synthesis error: " +:+ e)).
Proof.
  intros Es Ew. run_start. rewrite Es, Ew. cbv beta iota zeta.
  by destruct (run_command (subprocess_run w Yosys)) as [[rc out] err].
Qed.

Lemma log_fault_hides_yosys_status_witness :
  run_yosys_synthesis log_fault_world =
    mkResults None None (Some (elapsed log_fault_world)) false
      (Some ("Yosys synthesis error: " +:+
             "[Errno 28] No space left on device")).
Proof.
  apply (log_fault_hides_yosys_status log_fault_world "/tmp/tmpk3v9.ys");
    reflexivity.
Defined.

(* ===================================================================== *)
(** * Further properties of the metric extractors                        *)
(* ===================================================================== *)

(** Once the greatest item so far is [None], [max] returns only when
    there is no further item. *)
Lemma max_from_none l m : max_from None l = Some m -> l = [] /\ m = None.
Proof. destruct l; [by intros [= <-]|done]. Qed.

Lemma max_from_int l : forall a m,
  max_from (Some a) l = Some m ->
  exists d, m = Some d /\ (a <= d)%Z
    /\ Forall (fun x => exists v, x = Some v /\ (v <= d)%Z) l
    /\ (d = a \/ Some d ∈ l).
Proof.
  induction l as [|x l IH]; intros a m; cbn [max_from].
  - intros [= <-]. exists a. repeat split; [lia|constructor|by left].
  - destruct x as [b|]; [|done]. intros H.
    destruct (IH _ _ H) as (d & -> & Hd & Hall & Hin).
    exists d. split; [done|]. split; [lia|]. split.
    + constructor; [exists b; split; [done|lia]|done].
    + destruct Hin as [->|Hin]; [|right; by right].
      destruct (Z.max_spec a b) as [[_ ->]|[_ ->]];
        [right; left|by left].
Qed.

Lemma all_levels_spec l : forall vs,
  all_levels l = Some vs ->
  map level l =
    map (fun x => match x with Some v => Level v | None => NullLevel end) vs.
Proof.
  induction l as [|e l IH]; intros vs; cbn [all_levels].
  - by intros [= <-].
  - destruct (level e) as [| |v] eqn:Ev; [done| |];
      (destruct (all_levels l) as [vs'|]; [|discriminate]);
      intros [= <-]; cbn; by rewrite Ev, (IH vs').
Qed.

Lemma all_levels_missing l e :
  e ∈ l -> level e = NoLevel -> all_levels l = None.
Proof.
  induction 1 as [e l|e x l _ IH]; intros He; cbn [all_levels].
  - by rewrite He.
  - rewrite (IH He). by destruct (level x).
Qed.

Lemma parse_circt_json_levels entries rest :
  _parse_circt_json (Json (mkReport (Some entries) :: rest)) =
    match all_levels entries with
    | Some (v :: vs) =>
        match max_from v vs with
        | Some timing_levels => (timing_levels, count_at_100 entries)
        | None => (None, None)
        end
    | _ => (None, None)
    end.
Proof.
  unfold _parse_circt_json. cbn [report_timing_levels].
  destruct entries as [|e entries]; reflexivity.
Qed.

(** The depth the JSON extractor reports is the greatest level of the
    first path report: every entry has a level that is at most the depth,
    some entry has the depth as its level; and the cell count comes from
    the same list. *)
Theorem circt_depth_is_maximum entries rest d c :
  _parse_circt_json (Json (mkReport (Some entries) :: rest)) = (Some d, c) ->
  Forall (fun e => exists v, level e = Level v /\ (v <= d)%Z) entries
  /\ Exists (fun e => level e = Level d) entries
  /\ c = count_at_100 entries.
Proof.
  rewrite parse_circt_json_levels.
  destruct (all_levels entries) as [[|v vs]|] eqn:E; try discriminate.
  destruct (max_from v vs) as [t|] eqn:Em; [|discriminate].
  intros [= -> <-]. apply all_levels_spec in E.
  destruct v as [a|]; [|by apply max_from_none in Em as [_ ?]].
  apply max_from_int in Em as (d' & [= <-] & Ha & Hall & Hin).
  assert (Forall (fun x => exists v, x = Some v /\ (v <= d)%Z) (Some a :: vs))
    as Hall' by (constructor; [by exists a|done]).
  assert (Some d ∈ Some a :: vs) as Hin'
    by (destruct Hin as [->|Hin]; [left|by right]).
  clear Ha Hall Hin. split; [|split; [|done]].
  - revert E Hall'. generalize (Some a :: vs). clear.
    induction entries as [|e entries IH]; intros [|w ws] E Hall;
      try discriminate; [constructor|].
    injection E as Ew E. inversion Hall as [|? ? (v & -> & Hv) Hws]; subst.
    constructor; [by exists v|by eapply IH].
  - revert E Hin'. generalize (Some a :: vs). clear.
    induction entries as [|e entries IH]; intros [|w ws] E Hin;
      try discriminate; [by apply elem_of_nil in Hin|].
    injection E as Ew E. apply elem_of_cons in Hin as [<-|Hin].
    + by left.
    + right. by eapply IH.
Qed.

Lemma circt_depth_is_maximum_witness :
  Forall (fun e => exists v, level e = Level v /\ (v <= 7)%Z)
    [mkLevel (Level 4) (Some 50%Z) (Some 2%Z);
     mkLevel (Level 7) (Some 100%Z) (Some 5%Z)]
  /\ Exists (fun e => level e = Level 7)
       [mkLevel (Level 4) (Some 50%Z) (Some 2%Z);
        mkLevel (Level 7) (Some 100%Z) (Some 5%Z)]
  /\ Some 5%Z =
       count_at_100 [mkLevel (Level 4) (Some 50%Z) (Some 2%Z);
                     mkLevel (Level 7) (Some 100%Z) (Some 5%Z)].
Proof.
  apply (circt_depth_is_maximum
           [mkLevel (Level 4) (Some 50%Z) (Some 2%Z);
            mkLevel (Level 7) (Some 100%Z) (Some 5%Z)] [] 7%Z (Some 5%Z)).
  reflexivity.
Defined.

(** One entry without the key ['level'] makes the JSON extractor drop
    everything: it reports neither depth nor cell count, whatever the
    other entries hold. *)
Theorem circt_json_malformed_entry entries rest e :
  e ∈ entries -> level e = NoLevel ->
  _parse_circt_json (Json (mkReport (Some entries) :: rest)) = (None, None).
Proof.
  intros Hin He. rewrite parse_circt_json_levels.
  by rewrite (all_levels_missing _ _ Hin He).
Qed.

Lemma circt_json_malformed_entry_witness :
  _parse_circt_json
    (Json [mkReport (Some [mkLevel (Level 7) (Some 100%Z) (Some 5%Z);
                           mkLevel NoLevel (Some 50%Z) (Some 2%Z)])])
  = (None, None).
Proof.
  apply (circt_json_malformed_entry _ []
           (mkLevel NoLevel (Some 50%Z) (Some 2%Z))).
  - right. left.
  - reflexivity.
Defined.

Lemma count_at_100_cons e l :
  count_at_100 (e :: l) =
    if decide (percentage e = Some 100%Z) then count e else count_at_100 l.
Proof.
  cbn [count_at_100]. destruct (percentage e) as [z|]; [|done].
  destruct (decide (Some z = Some 100%Z)) as [[= ->]|Hne]; [done|].
  destruct z as [|p|p]; try done.
  do 7 (destruct p as [p|p|]; try done).
Qed.

Lemma count_at_100_first before e after :
  Forall (fun x => percentage x <> Some 100%Z) before ->
  percentage e = Some 100%Z ->
  count_at_100 (before ++ e :: after) = count e.
Proof.
  intros Hb He. induction Hb as [|x before Hx _ IH]; cbn [app].
  - rewrite count_at_100_cons. by destruct (decide _).
  - rewrite count_at_100_cons. by destruct (decide _).
Qed.

(** When the JSON extractor reports a depth, the cell count it reports is
    the ['count'] of the first entry whose percentage is 100: later
    entries are not looked at, also when that entry has no count. *)
Theorem cell_count_of_first_full_bucket before e after rest d :
  fst (_parse_circt_json
         (Json (mkReport (Some (before ++ e :: after)) :: rest))) = Some d ->
  Forall (fun x => percentage x <> Some 100%Z) before ->
  percentage e = Some 100%Z ->
  snd (_parse_circt_json
         (Json (mkReport (Some (before ++ e :: after)) :: rest))) = count e.
Proof.
  rewrite parse_circt_json_levels. intros Hd Hb He.
  destruct (all_levels (before ++ e :: after)) as [[|v vs]|];
    try discriminate.
  destruct (max_from v vs) as [t|]; [|discriminate].
  cbn [snd]. by apply count_at_100_first.
Qed.

Lemma cell_count_of_first_full_bucket_witness :
  snd (_parse_circt_json
         (Json [mkReport
                  (Some ([mkLevel (Level 4) (Some 50%Z) (Some 2%Z)]
                         ++ mkLevel (Level 7) (Some 100%Z) None
                         :: [mkLevel (Level 7) (Some 100%Z) (Some 5%Z)]))]))
  = None.
Proof.
  apply (cell_count_of_first_full_bucket
           [mkLevel (Level 4) (Some 50%Z) (Some 2%Z)]
           (mkLevel (Level 7) (Some 100%Z) None)
           [mkLevel (Level 7) (Some 100%Z) (Some 5%Z)] [] 7%Z).
  - reflexivity.
  - constructor; [discriminate|constructor].
  - reflexivity.
Defined.

(** The JSON extractor reports a cell count without a depth in one case
    only: the first path report has a single entry, whose level is
    [null], whose percentage is 100 and which has a count.  ([max] of one
    item returns it without comparing, so the [None] comes through.) *)
Theorem circt_count_without_depth json_file c :
  _parse_circt_json json_file = (None, Some c) <->
  exists rest,
    json_file =
      Json (mkReport (Some [mkLevel NullLevel (Some 100%Z) (Some c)]) :: rest).
Proof.
  split; [|by intros [rest ->]].
  destruct json_file as [|[|[[entries|]] rest]]; try discriminate.
  rewrite parse_circt_json_levels.
  destruct (all_levels entries) as [[|v vs]|] eqn:E; try discriminate.
  destruct (max_from v vs) as [t|] eqn:Em; [|discriminate].
  intros [= -> Hc].
  destruct v as [a|].
  { by apply max_from_int in Em as (d & ? & _). }
  apply max_from_none in Em as [-> _].
  apply all_levels_spec in E.
  destruct entries as [|[l p n] [|? ?]]; try discriminate E.
  injection E as El. cbn [level] in El. subst l.
  rewrite count_at_100_cons in Hc. cbn [percentage count] in Hc.
  destruct (decide (p = Some 100%Z)) as [->|]; [|discriminate Hc].
  subst n. by exists rest.
Qed.

(* ===================================================================== *)
(** * The capture of the log pattern                                     *)
(* ===================================================================== *)

Lemma greedy_rep_inv c k : forall s prev i r,
  Re.greedy_rep c k prev s = Some (i, r) ->
  (exists prev' s', k prev' s' = Some r)
  /\ ((forall a, c a = true -> Re.is_digit a = true) ->
      all_digits (Re.take_str i s) = true).
Proof.
  assert (forall prev s i r,
            option_map (pair O) (k prev s) = Some (i, r) ->
            (exists prev' s', k prev' s' = Some r)
            /\ ((forall a, c a = true -> Re.is_digit a = true) ->
                all_digits (Re.take_str i s) = true)) as Hk.
  { intros prev s i r H. destruct (k prev s) as [r'|] eqn:E; [|done].
    injection H as <- <-. split; [by eexists _, _|].
    intros _. by destruct s. }
  induction s as [|a s IH]; intros prev i r; cbn [Re.greedy_rep].
  - apply Hk.
  - destruct (c a) eqn:Ec; [|apply Hk].
    destruct (Re.greedy_rep c k (Some a) s) as [[i' r']|] eqn:E; [|apply Hk].
    intros [= <- <-]. destruct (IH _ _ _ E) as [H1 H2]. split; [done|].
    intros Hc. cbn [Re.take_str all_digits]. by rewrite (Hc a Ec), (H2 Hc).
Qed.

Lemma lazy_rep_inv c k : forall s prev i r,
  Re.lazy_rep c k prev s = Some (i, r) ->
  exists prev' s', k prev' s' = Some r.
Proof.
  induction s as [|a s IH]; intros prev i r; cbn [Re.lazy_rep].
  - destruct (k prev "") as [r'|] eqn:E; [|done].
    intros [= <- <-]. by eexists _, _.
  - destruct (k prev (String a s)) as [r'|] eqn:E.
    + intros [= <- <-]. by eexists _, _.
    + destruct (c a); [|done].
      destruct (Re.lazy_rep c k (Some a) s) as [[i' r']|] eqn:E'; [|done].
      intros [= <- <-]. by eapply IH.
Qed.

(** The groups of a match are non-empty runs of digits, one for every
    capturing item, when each capturing item is a digit class under [+]. *)
Lemma match_here_groups p : 
  Forall (fun it =>
            match it with
            | Re.Atom c q true =>
                q = Re.Plus /\ forall a, c a = true -> Re.is_digit a = true
            | _ => True
            end) p ->
  forall prev s n gs,
    Re.match_here p prev s = Some (n, gs) ->
    Forall (fun g => all_digits g = true /\ g <> "") gs
    /\ length gs =
       length (List.filter (fun it => match it with
                                      | Re.Atom _ _ cap => cap
                                      | Re.Bol => false
                                      end) p).
Proof.
  induction 1 as [|it p Hit _ IH]; intros prev s n gs;
    cbn [Re.match_here List.filter].
  - intros [= <- <-]. by split.
  - destruct it as [c q cap|].
    + cbv zeta. unfold Re.close.
      match goal with
      | |- match ?R with _ => _ end = _ -> _ => destruct R as [[i [n' gs']]|] eqn:ER
      end; [|done].
      intros [= <- <-].
      assert (exists prev' s', Re.match_here p prev' s' = Some (n', gs'))
        as (prev' & s' & Hk).
      { destruct q.
        - destruct s as [|a s]; [done|]. destruct (c a); [|done].
          destruct (Re.match_here p (Some a) s) as [r|] eqn:E; [|done].
          injection ER as <- <-. by eexists _, _.
        - by apply greedy_rep_inv in ER as [? _].
        - by apply lazy_rep_inv in ER.
        - destruct s as [|a s]; [done|]. destruct (c a); [|done].
          destruct (Re.greedy_rep c (Re.match_here p) (Some a) s)
            as [[i' r]|] eqn:E; [|done].
          injection ER as <- <-. by apply greedy_rep_inv in E as [? _]. }
      destruct (IH _ _ _ _ Hk) as [Hg Hl].
      destruct cap; [|done].
      destruct Hit as [-> Hc]. split; [|cbn; by rewrite Hl].
      constructor; [|done].
      destruct s as [|a s]; [done|]. destruct (c a) eqn:Ec; [|done].
      destruct (Re.greedy_rep c (Re.match_here p) (Some a) s)
        as [[i' r]|] eqn:E; [|done].
      injection ER as <- _. apply greedy_rep_inv in E as [_ Hd].
      cbn [Re.take_str all_digits]. rewrite (Hc a Ec), (Hd Hc). by split.
    + destruct (Re.at_bol prev); [|done]. apply IH.
Qed.

Lemma abc_levels_match prev s m :
  Re.match_here Re.abc_levels_pattern prev s = Some m ->
  all_digits (Re.found s m) = true /\ Re.found s m <> "".
Proof.
  destruct m as [n gs]. intros H.
  apply match_here_groups in H as [Hg Hl].
  - change (length gs = 1%nat) in Hl.
    destruct gs as [|g [|? ?]]; try discriminate.
    unfold Re.found. cbn [snd]. by inversion Hg.
  - unfold Re.abc_levels_pattern. cbn [Re.lit app].
    repeat constructor. done.
Qed.

Lemma abc_levels_findall s : forall prev skip,
  Forall (fun g => all_digits g = true /\ g <> "")
    (Re.findall_from Re.abc_levels_pattern prev skip s).
Proof.
  induction s as [|a s IH]; intros prev skip.
  - destruct skip; cbn [Re.findall_from]; [|done].
    destruct (Re.match_here _ _ _) as [m|] eqn:E; [|done].
    constructor; [by eapply abc_levels_match|done].
  - destruct skip; cbn [Re.findall_from]; [|apply IH].
    destruct (Re.match_here _ _ _) as [m|] eqn:E; [|apply IH].
    constructor; [by eapply abc_levels_match|apply IH].
Qed.

Lemma int_acc_digits s : forall acc,
  all_digits s = true -> (0 <= acc)%Z -> (0 <= Re.int_acc acc s)%Z.
Proof.
  induction s as [|a s IH]; intros acc Hd Hacc; cbn [Re.int_acc]; [done|].
  cbn [all_digits] in Hd. apply andb_true_iff in Hd as [Ha Hs].
  apply IH; [done|]. unfold Re.is_digit in Ha. cbv zeta in Ha.
  apply andb_true_iff in Ha as [Ha _]. apply Nat.leb_le in Ha.
  unfold Re.digit_val. lia.
Qed.

(** A depth the log extractor reports is the decimal value of a non-empty
    run of digits that the pattern captured in the log, so it is never
    negative. *)
Theorem yosys_depth_is_a_digit_run log_file d :
  _parse_yosys_abc_levels log_file = Some d ->
  (0 <= d)%Z
  /\ exists content g,
       log_file = Content content
       /\ g ∈ Re.findall Re.abc_levels_pattern content
       /\ all_digits g = true /\ g <> "" /\ d = Re.int g.
Proof.
  destruct log_file as [|content]; [discriminate|].
  unfold _parse_yosys_abc_levels. cbv zeta.
  destruct (last (Re.findall Re.abc_levels_pattern content)) as [g|] eqn:E;
    [|discriminate].
  intros [= <-]. apply last_Some_elem_of in E.
  pose proof (abc_levels_findall content None O) as Hall.
  rewrite Forall_forall in Hall. destruct (Hall g E) as [Hd Hne].
  split; [by apply int_acc_digits|].
  by exists content, g.
Qed.

Lemma yosys_depth_is_a_digit_run_witness :
  (0 <= 15)%Z
  /\ exists content g,
       Content abc_log = Content content
       /\ g ∈ Re.findall Re.abc_levels_pattern content
       /\ all_digits g = true /\ g <> "" /\ 15%Z = Re.int g.
Proof.
  apply (yosys_depth_is_a_digit_run (Content abc_log) 15%Z).
  vm_compute. reflexivity.
Defined.

(* ===================================================================== *)
(** * Further properties of the comparator                               *)
(* ===================================================================== *)

Lemma int_metric_total wk ak ik entries (a : gmap string value) :
  exists a', compare_int_metric wk ak ik entries a = Ok a'.
Proof.
  unfold compare_int_metric.
  destruct (2 <=? length entries)%nat eqn:El; [|by eexists].
  apply Nat.leb_le in El.
  pose proof (sort_by_value_length Z.ltb entries) as Hl.
  destruct (sort_by_value Z.ltb entries) as [|best rest]; simpl in Hl; [lia|].
  by eexists.
Qed.

Lemma present_elem {V} (metric : SynthesisResults -> option V) flows name v :
  (name, v) ∈ present metric flows ->
  exists r, (name, r) ∈ flows /\ metric r = Some v.
Proof.
  induction flows as [|[n r] flows IH]; cbn [present]; intros H.
  - by apply elem_of_nil in H.
  - destruct (metric r) as [v'|] eqn:E.
    + apply elem_of_cons in H as [[= -> ->]|H].
      * exists r. split; [left|done].
      * destruct (IH H) as (r' & ? & ?). exists r'. split; [by right|done].
    + destruct (IH H) as (r' & ? & ?). exists r'. split; [by right|done].
Qed.

Lemma successful_flows_elem c y h name r :
  (name, r) ∈ successful_flows c y h ->
  flow_named c y h name = Some r /\ success r = true.
Proof.
  unfold successful_flows.
  destruct (success c) eqn:Ec, (success y) eqn:Ey, h as [h|];
    try destruct (success h) eqn:Eh; cbn [app]; intros H;
    repeat (apply elem_of_cons in H as [[= -> ->]|H]; [by split|]);
    by apply elem_of_nil in H.
Qed.

Lemma sorted_head_succeeded {V} (ltb : V -> V -> bool)
    (metric : SynthesisResults -> option V) c y h b rest :
  sort_by_value ltb (present metric (successful_flows c y h)) = b :: rest ->
  exists r, flow_named c y h (fst b) = Some r /\ success r = true
            /\ metric r = Some (snd b).
Proof.
  intros Hs.
  assert (b ∈ present metric (successful_flows c y h)) as Hin.
  { rewrite <- (sort_by_value_perm ltb), Hs. left. }
  destruct b as [name v].
  apply present_elem in Hin as (r & Hin & Hm).
  apply successful_flows_elem in Hin as [Hn Hsucc].
  by exists r.
Qed.

(** The comparator raises in one case only: at least two successful
    flows report a runtime and the smallest runtime is zero, so that the
    speedup divides by zero; the exception is the [ZeroDivisionError]
    with the message ['float division by zero'].  The reads of the first
    and second entry of a ranking never fail. *)
Theorem comparator_raises_only_on_zero_runtime c y h e :
  compare_results c y h = Fault e <->
  e = "float division by zero"
  /\ exists fastest second rest,
       sort_by_value Qltb (present runtime (successful_flows c y h))
         = fastest :: second :: rest
       /\ (snd fastest == 0)%Q.
Proof.
  unfold compare_results. cbv zeta.
  pose proof (present_length runtime (successful_flows c y h)) as Hp.
  pose proof (sort_by_value_length Qltb
                (present runtime (successful_flows c y h))) as Hl.
  destruct (length (successful_flows c y h) <? 2)%nat eqn:El.
  - apply Nat.ltb_lt in El. split; [done|].
    intros (_ & f & s & r & Hs & _). rewrite Hs in Hl. simpl in Hl. lia.
  - unfold mbind, fallible_bind.
    destruct (int_metric_total "timing_winner" "timing_levels_all"
                "timing_improvement"
                (present timing_levels (successful_flows c y h)) ∅)
      as [a1 ->].
    destruct (int_metric_total "area_winner" "lut_counts_all"
                "area_improvement"
                (present lut_count (successful_flows c y h)) a1)
      as [a2 ->].
    unfold compare_runtime.
    destruct (2 <=? length (present runtime (successful_flows c y h)))%nat
      eqn:E2.
    + apply Nat.leb_le in E2.
      destruct (sort_by_value Qltb
                  (present runtime (successful_flows c y h)))
        as [|f [|s r]]; simpl in Hl; try lia.
      destruct (Qeq_bool (snd f) 0) eqn:Ez.
      * split.
        -- intros [= <-]. split; [done|]. exists f, s, r.
           split; [done|]. by apply Qeq_bool_iff.
        -- by intros [-> _].
      * split; [done|]. intros (_ & f' & s' & r' & [= <- <- <-] & Hz).
        apply Qeq_bool_iff in Hz. congruence.
    + apply Nat.leb_gt in E2. split; [done|].
      intros (_ & f & s & r & Hs & _). rewrite Hs in Hl. simpl in Hl. lia.
Qed.

(** A hybrid result that did not succeed changes nothing: the analysis,
    or the exception, is the one of the comparison without a hybrid
    result. *)
Theorem failed_hybrid_is_ignored c y h :
  success h = false ->
  compare_results c y (Some h) =
    match compare_results c y None with
    | Ok comparison => Ok (mkComparison c y (Some h) (analysis comparison))
    | Fault e => Fault e
    end.
Proof.
  intros Hh. unfold compare_results, successful_flows. rewrite Hh.
  cbv zeta.
  destruct (length _ <? 2)%nat; [reflexivity|].
  unfold mbind, fallible_bind.
  destruct (compare_int_metric "timing_winner" _ _ _ _) as [a1|]; [|done].
  destruct (compare_int_metric "area_winner" _ _ _ _) as [a2|]; [|done].
  destruct (compare_runtime _ _) as [a3|]; done.
Qed.

Lemma failed_hybrid_is_ignored_witness :
  compare_results deep_circt shallow_yosys (Some failed_flow) =
    match compare_results deep_circt shallow_yosys None with
    | Ok comparison =>
        Ok (mkComparison deep_circt shallow_yosys (Some failed_flow)
              (analysis comparison))
    | Fault e => Fault e
    end.
Proof.
  apply (failed_hybrid_is_ignored deep_circt shallow_yosys failed_flow).
  reflexivity.
Defined.

(** The depth winner and the area winner are always there, and each is
    the marker or the name of a flow that succeeded and reported the
    metric; a runtime winner, when there is one, is the name of a flow
    that succeeded and reported a runtime. *)
Theorem winners_are_successful_flows c y h cmp :
  compare_results c y h = Ok cmp ->
  (exists name,
     analysis cmp !! "timing_winner" = Some (VStr name)
     /\ (name = unable
         \/ exists r v, flow_named c y h name = Some r
              /\ success r = true /\ timing_levels r = Some v))
  /\ (exists name,
        analysis cmp !! "area_winner" = Some (VStr name)
        /\ (name = unable
            \/ exists r v, flow_named c y h name = Some r
                 /\ success r = true /\ lut_count r = Some v))
  /\ (forall name,
        analysis cmp !! "runtime_winner" = Some (VStr name) ->
        exists r v, flow_named c y h name = Some r
          /\ success r = true /\ runtime r = Some v).
Proof.
  intros H. split; [|split].
  - pose proof (timing_block _ _ _ _ H) as Hb. cbv zeta in Hb.
    destruct Hb as [(_ & Hw & _)|(b & s & r & Hs & Hw & _)].
    + exists unable. split; [done|by left].
    + exists (fst b). split; [done|]. right.
      apply sorted_head_succeeded in Hs as (r' & ? & ? & ?).
      by exists r', (snd b).
  - pose proof (area_block _ _ _ _ H) as Hb. cbv zeta in Hb.
    destruct Hb as [(_ & Hw & _)|(b & s & r & Hs & Hw & _)].
    + exists unable. split; [done|by left].
    + exists (fst b). split; [done|]. right.
      apply sorted_head_succeeded in Hs as (r' & ? & ? & ?).
      by exists r', (snd b).
  - intros name Hn.
    pose proof (runtime_block _ _ _ _ H) as Hb. cbv zeta in Hb.
    destruct Hb as [(_ & Hw & _)|(b & s & r & Hs & _ & Hw & _)];
      [congruence|].
    rewrite Hw in Hn. injection Hn as <-.
    apply sorted_head_succeeded in Hs as (r' & ? & ? & ?).
    by exists r', (snd b).
Qed.

Lemma winners_are_successful_flows_witness :
  exists name,
    analysis (comparison_of deep_circt shallow_yosys None) !! "timing_winner"
      = Some (VStr name)
    /\ (name = unable
        \/ exists r v, flow_named deep_circt shallow_yosys None name = Some r
             /\ success r = true /\ timing_levels r = Some v).
Proof.
  apply (winners_are_successful_flows deep_circt shallow_yosys None
           (comparison_of deep_circt shallow_yosys None)).
  vm_compute. reflexivity.
Defined.

Lemma present_all {V} (metric : SynthesisResults -> option V) flows :
  Forall (fun item => metric (snd item) <> None) flows ->
  length (present metric flows) = length flows.
Proof.
  induction 1 as [|[n r] flows Hr _ IH]; cbn [present]; [done|].
  cbn [snd] in Hr. destruct (metric r); [|done]. cbn. by rewrite IH.
Qed.

Lemma flow_named_cases c y h name r :
  flow_named c y (Some h) name = Some r -> r = c \/ r = y \/ r = h.
Proof.
  unfold flow_named.
  destruct (String.eqb name "CIRCT"); [intros [= <-]; auto|].
  destruct (String.eqb name "Yosys+ABC"); [intros [= <-]; auto|].
  destruct (String.eqb name "CIRCT+Yosys"); [intros [= <-]; auto|done].
Qed.

(** On the results of the three runners every successful flow has a
    runtime, so the runtime ranking exists exactly when at least two
    flows succeeded: with fewer the analysis has no runtime winner, with
    two or more it names one of the three strategies. *)
Theorem runner_results_rank_runtime wc wy wh cmp :
  compare_results (run_circt_synthesis wc) (run_yosys_synthesis wy)
    (Some (run_hybrid_synthesis wh)) = Ok cmp ->
  let flows :=
    successful_flows (run_circt_synthesis wc) (run_yosys_synthesis wy)
      (Some (run_hybrid_synthesis wh)) in
  ((length flows < 2)%nat -> analysis cmp !! "runtime_winner" = None)
  /\ ((2 <= length flows)%nat ->
      exists name,
        analysis cmp !! "runtime_winner" = Some (VStr name)
        /\ name ∈ priority).
Proof.
  intros H flows.
  assert (length (present runtime flows) = length flows) as Hlen.
  { apply present_all, Forall_forall. intros [name r] Hin.
    apply successful_flows_elem in Hin as [Hn Hs]. cbn [snd].
    assert (exists w, flow_shape (elapsed w) (overrun w) r) as [w Hw].
    { apply flow_named_cases in Hn as [-> | [-> | ->]].
      - exists wc. apply run_circt_shape.
      - exists wy. apply run_yosys_shape.
      - exists wh. apply run_hybrid_shape. }
    by eapply shape_has_runtime. }
  pose proof (runtime_block _ _ _ _ H) as Hb. cbv zeta in Hb.
  fold flows in Hb. split; intros Hl.
  - destruct Hb as [(_ & Hw & _)|(b & s & r & Hs & _)]; [done|].
    apply (f_equal length) in Hs. rewrite sort_by_value_length in Hs.
    simpl in Hs. lia.
  - destruct Hb as [(Hlt & _)|(b & s & r & Hs & _ & Hw & _)]; [lia|].
    exists (fst b). split; [done|]. by eapply head_name_in_priority.
Qed.

Lemma runner_results_rank_runtime_witness :
  exists name,
    analysis
      (comparison_of (run_circt_synthesis good_world)
         (run_yosys_synthesis good_world)
         (Some (run_hybrid_synthesis good_world))) !! "runtime_winner"
      = Some (VStr name)
    /\ name ∈ priority.
Proof.
  apply (runner_results_rank_runtime good_world good_world good_world
           (comparison_of (run_circt_synthesis good_world)
              (run_yosys_synthesis good_world)
              (Some (run_hybrid_synthesis good_world)))).
  - vm_compute. reflexivity.
  - vm_compute. lia.
Defined.

Lemma runtime_total entries (a : gmap string value) :
  Forall (fun e : string * Q => ~ (snd e == 0)%Q) entries ->
  exists a', compare_runtime entries a = Ok a'.
Proof.
  intros Hnz. unfold compare_runtime.
  destruct (2 <=? length entries)%nat eqn:El; [|by eexists].
  apply Nat.leb_le in El.
  pose proof (sort_by_value_perm Qltb entries) as Hp.
  pose proof (sort_by_value_length Qltb entries) as Hl.
  destruct (sort_by_value Qltb entries) as [|f [|s r]];
    [simpl in Hl; lia|by eexists|].
  assert (f ∈ entries) as Hin by (rewrite <- Hp; left).
  rewrite Forall_forall in Hnz. specialize (Hnz f Hin).
  destruct (Qeq_bool (snd f) 0) eqn:Ez; [|by eexists].
  by apply Qeq_bool_iff in Ez.
Qed.

Lemma compare_results_returns c y h :
  Forall (fun e : string * Q => ~ (snd e == 0)%Q)
    (present runtime (successful_flows c y h)) ->
  exists cmp, compare_results c y h = Ok cmp.
Proof.
  intros Hnz. unfold compare_results. cbv zeta.
  destruct (length (successful_flows c y h) <? 2)%nat; [by eexists|].
  unfold mbind, fallible_bind.
  destruct (int_metric_total "timing_winner" "timing_levels_all"
              "timing_improvement"
              (present timing_levels (successful_flows c y h)) ∅)
    as [a1 ->].
  destruct (int_metric_total "area_winner" "lut_counts_all"
              "area_improvement"
              (present lut_count (successful_flows c y h)) a1)
    as [a2 ->].
  destruct (runtime_total _ a2 Hnz) as [a3 ->]. by eexists.
Qed.

Lemma shape_runtime_positive seconds late r v :
  flow_shape seconds late r -> (0 < seconds)%Q -> (0 < late)%Q ->
  runtime r = Some v -> (0 < v)%Q.
Proof. destruct 1; cbn; intros; by simplify_eq. Qed.

(** When the clock has moved on at every reading the three flows take of
    it and the report can be saved, comparing a file raises nothing: the
    runners catch what their tools and files do, and the comparator has
    no zero runtime to divide by. *)
Theorem comparison_returns_when_clock_advances f :
  clock_advances (circt_world f) -> clock_advances (yosys_world f) ->
  clock_advances (hybrid_world f) -> save_report f = Ok tt ->
  exists comparison, run_comparison f = Ok comparison.
Proof.
  intros Hc Hy Hh Hs. unfold run_comparison. cbv zeta.
  destruct (compare_results_returns
              (run_circt_synthesis (circt_world f))
              (run_yosys_synthesis (yosys_world f))
              (Some (run_hybrid_synthesis (hybrid_world f))))
    as [cmp ->].
  - apply Forall_forall. intros [name v] Hin. cbn [snd].
    apply present_elem in Hin as (r & Hin & Hr).
    apply successful_flows_elem in Hin as [Hn _].
    assert (exists w, flow_shape (elapsed w) (overrun w) r
                      /\ clock_advances w) as (w & Hw & [H1 H2]).
    { apply flow_named_cases in Hn as [-> | [-> | ->]].
      - exists (circt_world f). split; [apply run_circt_shape|done].
      - exists (yosys_world f). split; [apply run_yosys_shape|done].
      - exists (hybrid_world f). split; [apply run_hybrid_shape|done]. }
    assert (0 < v)%Q as Hpos.
    { apply (shape_runtime_positive _ _ _ _ Hw); [| |done];
        unfold elapsed, overrun, Qminus; by apply -> Qlt_minus_iff. }
    intros Hz. rewrite Hz in Hpos. by apply Qlt_irrefl in Hpos.
  - unfold mbind, fallible_bind. rewrite Hs. by eexists.
Qed.

Lemma comparison_returns_when_clock_advances_witness :
  exists comparison, run_comparison good_run = Ok comparison.
Proof.
  apply (comparison_returns_when_clock_advances good_run);
    try (split; reflexivity); reflexivity.
Defined.

Lemma print_flow_ok r :
  print_flow r = Ok tt <-> (success r = true -> runtime r <> None).
Proof.
  unfold print_flow, format_seconds.
  destruct (success r), (runtime r); split; try done.
  intros H. exfalso. by apply H.
Qed.

(** The three blocks of the analysis section go through on what the
    comparator stored. *)
Lemma print_analysis_ok c y h cmp :
  compare_results c y h = Ok cmp ->
  print_ranking (analysis cmp) "timing_winner" "timing_levels_all"
    "timing_improvement" (VInt 0) 0%Q "int" = Ok tt
  /\ print_ranking (analysis cmp) "area_winner" "lut_counts_all"
       "area_improvement" (VInt 0) 0%Q "int" = Ok tt
  /\ print_ranking (analysis cmp) "runtime_winner" "runtimes_all"
       "speedup" (VFloat 1) 1%Q "float" = Ok tt.
Proof.
  intros H. unfold print_ranking. cbv zeta. split; [|split].
  - pose proof (timing_block _ _ _ _ H) as Hb. cbv zeta in Hb.
    destruct Hb as [(_ & -> & _)|(b & s & r & _ & -> & -> & ->)];
      [reflexivity|].
    cbn [default is_ranked truthy]. by destruct (_ && _).
  - pose proof (area_block _ _ _ _ H) as Hb. cbv zeta in Hb.
    destruct Hb as [(_ & -> & _)|(b & s & r & _ & -> & -> & ->)];
      [reflexivity|].
    cbn [default is_ranked truthy]. by destruct (_ && _).
  - pose proof (runtime_block _ _ _ _ H) as Hb. cbv zeta in Hb.
    destruct Hb as [(_ & -> & _)|(b & s & r & _ & _ & -> & -> & ->)];
      [reflexivity|].
    cbn [default is_ranked truthy]. by destruct (_ && _).
Qed.

(** On a comparison the comparator returned, [print_results] raises
    exactly when a flow marked successful has no runtime (the format
    [:.3f] of [None]): the analysis section only meets values of the
    types the comparator stores.  This never happens with the results of
    the three runners, so on their comparison [print_results] goes
    through in every world. *)
Theorem print_results_accepts_runner_results c y h cmp :
  compare_results c y h = Ok cmp ->
  (print_results cmp = Ok tt <->
   (forall r, r = c \/ r = y \/ h = Some r ->
              success r = true -> runtime r <> None))
  /\ ((exists wc wy wh,
         c = run_circt_synthesis wc /\ y = run_yosys_synthesis wy
         /\ h = Some (run_hybrid_synthesis wh)) ->
      print_results cmp = Ok tt).
Proof.
  intros H.
  destruct (print_analysis_ok _ _ _ _ H) as (A1 & A2 & A3).
  destruct (compare_results_spec _ _ _ _ H) as (Ec & Ey & Eh & _).
  assert (print_results cmp = Ok tt <->
          (forall r, r = c \/ r = y \/ h = Some r ->
                     success r = true -> runtime r <> None)) as Hiff.
  { unfold print_results. cbv zeta. rewrite A1, A2, A3, Ec, Ey, Eh.
    unfold mbind, fallible_bind. split.
    - intros Hp r Hr. apply print_flow_ok.
      destruct (print_flow c) as [[]|] eqn:E1; [|done].
      destruct (print_flow y) as [[]|] eqn:E2; [|done].
      destruct Hr as [-> | [-> | ->]]; [done..|].
      by destruct (print_flow r) as [[]|].
    - intros Hall.
      rewrite (proj2 (print_flow_ok c)), (proj2 (print_flow_ok y))
        by (apply Hall; auto).
      destruct h as [r|].
      + rewrite (proj2 (print_flow_ok r)) by (apply Hall; auto).
        by destruct (2 <=? _)%nat.
      + by destruct (2 <=? _)%nat. }
  split; [exact Hiff|].
  intros (wc & wy & wh & -> & -> & ->). apply Hiff.
  intros r [-> | [-> | [= <-]]].
  - apply (shape_has_runtime _ _ _ (run_circt_shape wc (overrun wc))).
  - apply (shape_has_runtime _ _ _ (run_yosys_shape wy)).
  - apply (shape_has_runtime _ _ _ (run_hybrid_shape wh)).
Qed.

Lemma print_results_accepts_runner_results_witness :
  print_results
    (comparison_of (run_circt_synthesis good_world)
       (run_yosys_synthesis good_world)
       (Some (run_hybrid_synthesis good_world))) = Ok tt.
Proof.
  apply (print_results_accepts_runner_results
           (run_circt_synthesis good_world) (run_yosys_synthesis good_world)
           (Some (run_hybrid_synthesis good_world))).
  - vm_compute. reflexivity.
  - by exists good_world, good_world, good_world.
Defined.

(* ===================================================================== *)
(** * Further properties of the batch driver                             *)
(* ===================================================================== *)

Lemma process_file_results b file f :
  results (process_file b (file, f))
  = <[path_name file := file_entry file f]> (results b).
Proof.
  unfold process_file, file_entry, outcome. cbv beta iota zeta.
  by destruct (make_comparator f;; run_comparison f).
Qed.

Lemma process_file_counts b file f :
  successful_comparisons (summary (process_file b (file, f)))
  = (successful_comparisons (summary b) + (if file_ok f then 1 else 0))%Z
  /\ failed_comparisons (summary (process_file b (file, f)))
     = (failed_comparisons (summary b) + (if file_ok f then 0 else 1))%Z.
Proof.
  unfold process_file, file_ok, outcome. cbv beta iota zeta.
  destruct (make_comparator f;; run_comparison f) as [cmp|e];
    cbn [summary].
  - destruct (success (circt cmp) && success (yosys cmp)).
    + destruct (count_success_counts cmp (summary b)) as [-> ->].
      split; lia.
    + cbn. split; lia.
  - cbn. split; lia.
Qed.

Lemma process_file_total b item :
  total_files (process_file b item) = total_files b.
Proof.
  destruct item as [file f]. unfold process_file. cbv beta iota zeta.
  by destruct (make_comparator f;; run_comparison f).
Qed.

Lemma fold_process_counts files : forall b,
  successful_comparisons (summary (fold_left process_file files b))
  = (successful_comparisons (summary b)
     + Z.of_nat (length (List.filter (fun item => file_ok (snd item)) files)))%Z
  /\ failed_comparisons (summary (fold_left process_file files b))
     = (failed_comparisons (summary b)
        + Z.of_nat (length (List.filter
                              (fun item => negb (file_ok (snd item))) files)))%Z
  /\ total_files (fold_left process_file files b) = total_files b.
Proof.
  induction files as [|[file f] files IH]; intros b;
    cbn [fold_left List.filter snd].
  - cbn [length]. repeat split; lia.
  - destruct (IH (process_file b (file, f))) as (-> & -> & ->).
    destruct (process_file_counts b file f) as [-> ->].
    rewrite process_file_total.
    destruct (file_ok f); cbn [negb length]; repeat split; lia.
Qed.

Lemma filter_split {A} (p : A -> bool) (l : list A) :
  (length (List.filter p l) + length (List.filter (fun x => negb (p x)) l)
   = length l)%nat.
Proof.
  induction l as [|x l IH]; cbn [List.filter]; [done|].
  destruct (p x); cbn [negb length]; lia.
Qed.

Lemma batch_returned path files save_batch b :
  run_batch_comparison path files save_batch = Ok b ->
  files <> []
  /\ b = fold_left process_file files (new_batch path files).
Proof.
  unfold run_batch_comparison, new_batch.
  destruct files as [|item files]; [discriminate|].
  unfold mbind, fallible_bind. destruct save_batch as [[]|e]; [|discriminate].
  by intros [= <-].
Qed.

(** Every file of a batch is counted once: the successful comparisons are
    the files whose processing went through with the CIRCT flow and the
    Yosys flow both successful, the failed comparisons are all the
    others, and the two counts add up to [total_files], the number of
    files found. *)
Theorem batch_counts_every_file path files save_batch b :
  run_batch_comparison path files save_batch = Ok b ->
  successful_comparisons (summary b)
  = Z.of_nat (length (List.filter (fun item => file_ok (snd item)) files))
  /\ failed_comparisons (summary b)
     = Z.of_nat (length (List.filter
                           (fun item => negb (file_ok (snd item))) files))
  /\ total_files b = Z.of_nat (length files)
  /\ (successful_comparisons (summary b) + failed_comparisons (summary b)
      = total_files b)%Z.
Proof.
  intros H. apply batch_returned in H as [_ ->].
  destruct (fold_process_counts files (new_batch path files))
    as (-> & -> & ->).
  pose proof (filter_split (fun item => file_ok (snd item)) files).
  unfold new_batch. cbn. repeat split; lia.
Qed.

Lemma batch_counts_every_file_witness :
  successful_comparisons (summary (batch_of "bench" three_files)) = 2%Z
  /\ failed_comparisons (summary (batch_of "bench" three_files)) = 1%Z
  /\ total_files (batch_of "bench" three_files) = 3%Z.
Proof.
  destruct (batch_counts_every_file "bench" three_files (Ok tt)
              (batch_of "bench" three_files)) as (H1 & H2 & H3 & _).
  - vm_compute. reflexivity.
  - rewrite H1, H2, H3. repeat split; vm_compute; reflexivity.
Defined.

Lemma tally_timing_wins w s :
  ((circt_wins_timing (tally_timing w s) + yosys_wins_timing (tally_timing w s)
    <= circt_wins_timing s + yosys_wins_timing s + 1)
   /\ circt_wins_timing s <= circt_wins_timing (tally_timing w s)
   /\ yosys_wins_timing s <= yosys_wins_timing (tally_timing w s)
   /\ circt_wins_area (tally_timing w s) = circt_wins_area s
   /\ yosys_wins_area (tally_timing w s) = yosys_wins_area s)%Z.
Proof.
  unfold tally_timing.
  destruct (is_name w "CIRCT"), (is_name w "Yosys+ABC"), (is_name w "Tie");
    cbn; repeat split; lia.
Qed.

Lemma tally_area_wins w s :
  ((circt_wins_area (tally_area w s) + yosys_wins_area (tally_area w s)
    <= circt_wins_area s + yosys_wins_area s + 1)
   /\ circt_wins_area s <= circt_wins_area (tally_area w s)
   /\ yosys_wins_area s <= yosys_wins_area (tally_area w s)
   /\ circt_wins_timing (tally_area w s) = circt_wins_timing s
   /\ yosys_wins_timing (tally_area w s) = yosys_wins_timing s)%Z.
Proof.
  unfold tally_area.
  destruct (is_name w "CIRCT"), (is_name w "Yosys+ABC"), (is_name w "Tie");
    cbn; repeat split; lia.
Qed.

Lemma process_file_wins b item :
  tallies_bounded (summary b) ->
  tallies_bounded (summary (process_file b item)).
Proof.
  unfold tallies_bounded. intros Hb. destruct item as [file f].
  unfold process_file. cbv beta iota zeta.
  destruct (make_comparator f;; run_comparison f) as [cmp|e];
    cbn [summary]; [|cbn; lia].
  destruct (success (circt cmp) && success (yosys cmp)); [|cbn; lia].
  destruct (count_success_counts cmp (summary b)) as [-> _].
  unfold count_success. cbv zeta.
  set (w1 := get_winner (analysis cmp) "timing_winner").
  set (w2 := get_winner (analysis cmp) "area_winner").
  set (s0 := count_comparison (summary b)).
  destruct (tally_timing_wins w1 s0) as (T1 & T2 & T3 & T4 & T5).
  destruct (tally_area_wins w2 (tally_timing w1 s0))
    as (A1 & A2 & A3 & A4 & A5).
  unfold add_times.
  cbn [circt_wins_timing yosys_wins_timing circt_wins_area yosys_wins_area].
  rewrite A4, A5.
  assert (circt_wins_timing s0 = circt_wins_timing (summary b)
          /\ yosys_wins_timing s0 = yosys_wins_timing (summary b)
          /\ circt_wins_area s0 = circt_wins_area (summary b)
          /\ yosys_wins_area s0 = yosys_wins_area (summary b))
    as (E1 & E2 & E3 & E4) by done.
  lia.
Qed.

Lemma fold_process_wins files : forall b,
  tallies_bounded (summary b) ->
  tallies_bounded (summary (fold_left process_file files b)).
Proof.
  induction files as [|item files IH]; intros b Hb; [done|].
  cbn [fold_left]. apply IH. by apply process_file_wins.
Qed.

(** In every batch summary the win tallies are not negative, and for
    each of depth and area the wins of the two compared flows together
    do not exceed the number of successful comparisons. *)
Theorem win_tallies_are_bounded path files save_batch b :
  run_batch_comparison path files save_batch = Ok b ->
  tallies_bounded (summary b).
Proof.
  intros H. apply batch_returned in H as [_ ->].
  apply fold_process_wins. unfold tallies_bounded, new_batch. cbn. lia.
Qed.

Lemma win_tallies_are_bounded_witness :
  tallies_bounded (summary (batch_of "bench" three_files)).
Proof.
  apply (win_tallies_are_bounded "bench" three_files (Ok tt)).
  vm_compute. reflexivity.
Defined.

Lemma fold_results_is_Some files : forall b k,
  is_Some (results (fold_left process_file files b) !! k)
  <-> is_Some (results b !! k) \/ k ∈ base_names files.
Proof.
  induction files as [|[file f] files IH]; intros b k;
    cbn [fold_left base_names map fst].
  - split; [by left|]. intros [H|H]; [done|by apply elem_of_nil in H].
  - rewrite IH, process_file_results, lookup_insert_is_Some, elem_of_cons.
    fold (base_names files).
    destruct (decide (path_name file = k)); intuition congruence.
Qed.

Lemma fold_results_other files : forall b k,
  k ∉ base_names files ->
  results (fold_left process_file files b) !! k = results b !! k.
Proof.
  induction files as [|[file f] files IH]; intros b k Hk;
    cbn [fold_left]; [done|].
  cbn [base_names map fst] in Hk. apply not_elem_of_cons in Hk as [Hne Hk].
  rewrite IH by done. rewrite process_file_results.
  by apply lookup_insert_ne.
Qed.

Lemma fold_results_size files : forall b,
  (size (results (fold_left process_file files b))
   <= size (results b) + length files)%nat.
Proof.
  induction files as [|[file f] files IH]; intros b;
    cbn [fold_left length]; [lia|].
  etrans; [apply IH|]. rewrite process_file_results, map_size_insert.
  destruct (results b !! path_name file); cbn; lia.
Qed.

(** The entries of [results] are keyed by base name: a name has an entry
    exactly when it is the base name of a file of the batch; the entry of
    a name is that of the last file that carries it, so files with the
    same base name in different directories overwrite each other, and the
    number of entries is at most the number of files. *)
Theorem batch_entries_by_base_name path files save_batch b :
  run_batch_comparison path files save_batch = Ok b ->
  (forall k, is_Some (results b !! k) <-> k ∈ base_names files)
  /\ (forall before file f after,
        files = before ++ (file, f) :: after ->
        path_name file ∉ base_names after ->
        results b !! path_name file = Some (file_entry file f))
  /\ (Z.of_nat (size (results b)) <= total_files b)%Z.
Proof.
  intros H. apply batch_returned in H as [_ ->]. split; [|split].
  - intros k. rewrite fold_results_is_Some. unfold new_batch.
    cbn [results]. rewrite lookup_empty. split; [|by right].
    intros [[? H]|H]; done.
  - intros before file f after -> Hlast.
    rewrite fold_left_app. cbn [fold_left].
    rewrite fold_results_other by done.
    rewrite process_file_results. apply lookup_insert_eq.
  - destruct (fold_process_counts files (new_batch path files))
      as (_ & _ & ->).
    pose proof (fold_results_size files (new_batch path files)) as Hs.
    unfold new_batch in *. cbn [results total_files] in *.
    rewrite map_size_empty in Hs. lia.
Qed.

Lemma batch_entries_by_base_name_witness :
  results (batch_of "bench" [("rtl/top.sv", good_run); ("tb/top.sv", faulty_run)])
    !! "top.sv"
  = Some (file_entry "tb/top.sv" faulty_run).
Proof.
  destruct (batch_entries_by_base_name "bench"
              [("rtl/top.sv", good_run); ("tb/top.sv", faulty_run)] (Ok tt)
              (batch_of "bench"
                 [("rtl/top.sv", good_run); ("tb/top.sv", faulty_run)]))
    as (_ & H & _).
  - vm_compute. reflexivity.
  - apply (H [("rtl/top.sv", good_run)] "tb/top.sv" faulty_run []).
    + reflexivity.
    + apply not_elem_of_nil.
Defined.

(* ===================================================================== *)
(** * The file search and the exit status                                *)
(* ===================================================================== *)

Lemma string_ltb_lt a b :
  String.ltb a b = true <-> OrderedTypeEx.String_as_OT.lt a b.
Proof.
  rewrite <- OrderedTypeEx.String_as_OT.cmp_lt. unfold String.ltb.
  change OrderedTypeEx.String_as_OT.cmp with String.compare.
  destruct (String.compare a b); split; done.
Qed.

Lemma string_leb_cases a b :
  String.leb a b = true <-> a = b \/ String.ltb a b = true.
Proof.
  unfold String.leb, String.ltb.
  destruct (String.compare a b) eqn:E.
  - apply String.compare_eq_iff in E. split; [by left|done].
  - split; [by right|done].
  - split; [done|]. intros [->|]; [|done].
    assert (String.compare b b = Eq) as Hb.
    { pose proof (String.compare_antisym b b) as Ha.
      destruct (String.compare b b); done. }
    congruence.
Qed.

Lemma string_leb_trans a b c :
  String.leb a b = true -> String.leb b c = true -> String.leb a c = true.
Proof.
  rewrite !string_leb_cases.
  intros [->|H1] [->|H2]; auto. right.
  apply string_ltb_lt. apply string_ltb_lt in H1, H2.
  by eapply OrderedTypeEx.String_as_OT.lt_trans.
Qed.

Lemma string_not_ltb a b : String.ltb a b = false -> String.leb b a = true.
Proof.
  unfold String.ltb, String.leb. rewrite (String.compare_antisym a b).
  by destruct (String.compare b a).
Qed.

Lemma insert_path_perm x l : Permutation (insert_path x l) (x :: l).
Proof.
  induction l as [|y l IH]; cbn [insert_path]; [done|].
  destruct (String.ltb y x); [|done].
  rewrite IH. apply perm_swap.
Qed.

Lemma sort_paths_perm l : Permutation (sort_paths l) l.
Proof.
  induction l as [|x l IH]; cbn [sort_paths]; [done|].
  by rewrite insert_path_perm, IH.
Qed.

Lemma insert_path_ascending x l :
  ascending_paths l -> ascending_paths (insert_path x l).
Proof.
  unfold ascending_paths.
  induction l as [|y l IH]; intros Hl; cbn [insert_path].
  - repeat constructor.
  - apply StronglySorted_inv in Hl as [Hl Hy].
    destruct (String.ltb y x) eqn:E.
    + constructor; [by apply IH|].
      rewrite Forall_forall. intros z Hz.
      rewrite (insert_path_perm x l) in Hz.
      apply elem_of_cons in Hz as [->|Hz].
      * apply string_leb_cases. by right.
      * rewrite Forall_forall in Hy. by apply Hy.
    + apply string_not_ltb in E. constructor.
      * by constructor.
      * constructor; [done|].
        eapply Forall_impl; [exact Hy|]. intros z Hz.
        by eapply string_leb_trans.
Qed.

Lemma sort_paths_ascending l : ascending_paths (sort_paths l).
Proof.
  induction l as [|x l IH]; cbn [sort_paths]; [constructor|].
  by apply insert_path_ascending.
Qed.

(** For a directory the file search returns the regular files that the
    two globs yield, each once per glob result, in ascending order of
    their path text; for anything that is neither a file nor a directory
    it raises. *)
Theorem find_verilog_files_in_directory text suffix :
  (forall sv_matches v_matches,
     exists files,
       find_verilog_files (mkInput text suffix (IsDir sv_matches v_matches))
         = Ok files
       /\ Permutation files (globbed sv_matches v_matches)
       /\ ascending_paths files)
  /\ find_verilog_files (mkInput text suffix Neither)
     = Fault ("Input path does not exist: " +:+ text).
Proof.
  split; [|done]. intros sv v. eexists. split; [reflexivity|].
  split; [apply sort_paths_perm|apply sort_paths_ascending].
Qed.

Lemma batch_saved path files save_batch b :
  run_batch_comparison path files save_batch = Ok b ->
  files <> [] /\ save_batch = Ok tt.
Proof.
  unfold run_batch_comparison.
  destruct files as [|item files]; [discriminate|].
  unfold mbind, fallible_bind. by destruct save_batch as [[]|e].
Qed.

Lemma batch_faulted path files save_batch e :
  run_batch_comparison path files save_batch = Fault e ->
  files = [] \/ save_batch = Fault e.
Proof.
  unfold run_batch_comparison.
  destruct files as [|item files]; [by left|].
  unfold mbind, fallible_bind. destruct save_batch as [[]|e']; [done|].
  intros [= <-]. by right.
Qed.

Lemma none_failed {A} (p : A -> bool) (l : list A) :
  length (List.filter (fun x => negb (p x)) l) = 0%nat
  <-> Forall (fun x => p x = true) l.
Proof.
  induction l as [|x l IH]; cbn [List.filter]; [by split|].
  destruct (p x) eqn:E; cbn [negb length].
  - rewrite IH. split; [by constructor|]. by inversion 1.
  - split; [done|]. inversion 1. congruence.
Qed.

(** Started on a directory, the program exits with status 0 exactly when
    the search found at least one file, every file found is a successful
    comparison (its processing raised nothing and its CIRCT flow and its
    Yosys flow both succeeded) and the batch report was saved; otherwise
    the status is 1. *)
Theorem directory_exit_status i sv_matches v_matches :
  path_exists i = true -> comparator_dirs i = Ok tt ->
  path_kind (input i) = IsDir sv_matches v_matches ->
  let files := sort_paths (globbed sv_matches v_matches) in
  (main i = 0%Z <->
     files <> []
     /\ Forall (fun file => file_ok (runs i file) = true) files
     /\ save_batch_report i = Ok tt)
  /\ (main i = 0%Z \/ main i = 1%Z).
Proof.
  intros He Hc Hk files. unfold main, find_verilog_files.
  rewrite He, Hc, Hk. cbn [negb]. unfold mbind, fallible_bind.
  fold (globbed sv_matches v_matches). fold files.
  destruct (run_batch_comparison _ _ _) as [b|e] eqn:E.
  - pose proof (batch_saved _ _ _ _ E) as [Hne Hs].
    apply batch_returned in E as [_ ->].
    destruct (fold_process_counts
                (map (fun file => (file, runs i file)) files)
                (new_batch (path_text (input i))
                   (map (fun file => (file, runs i file)) files)))
      as (_ & -> & _).
    unfold new_batch at 1. cbn [summary new_summary failed_comparisons].
    pose proof (none_failed (fun item : string * FileRun => file_ok (snd item))
                  (map (fun file => (file, runs i file)) files)) as Hn.
    rewrite Forall_map in Hn. cbn [snd] in Hn.
    destruct (0 <? _)%Z eqn:Ez.
    + apply Z.ltb_lt in Ez. split; [|by right]. split; [done|].
      intros (_ & Hall & _). apply Hn in Hall. lia.
    + apply Z.ltb_ge in Ez. split; [|by left]. split; [|done].
      intros _. split; [by destruct files|]. split; [|done].
      apply Hn. lia.
  - split; [|by right]. split; [done|]. intros (Hne & _ & Hs).
    apply batch_faulted in E as [E|E]; [by destruct files|congruence].
Qed.

Lemma directory_exit_status_witness :
  (main dir_invocation = 0%Z <->
     sort_paths (globbed [("bench/top.sv", true)] []) <> []
     /\ Forall (fun file => file_ok (runs dir_invocation file) = true)
          (sort_paths (globbed [("bench/top.sv", true)] []))
     /\ save_batch_report dir_invocation = Ok tt)
  /\ (main dir_invocation = 0%Z \/ main dir_invocation = 1%Z).
Proof.
  apply (directory_exit_status dir_invocation [("bench/top.sv", true)] []);
    reflexivity.
Defined.

Lemma run_comparison_flows f cmp :
  run_comparison f = Ok cmp ->
  circt cmp = run_circt_synthesis (circt_world f)
  /\ yosys cmp = run_yosys_synthesis (yosys_world f)
  /\ hybrid cmp = Some (run_hybrid_synthesis (hybrid_world f)).
Proof.
  unfold run_comparison. cbv zeta. unfold mbind, fallible_bind.
  destruct (compare_results _ _ _) as [cmp'|] eqn:E; [|done].
  destruct (save_report f) as [[]|]; [|done]. intros [= <-].
  by apply compare_results_spec in E as (? & ? & ? & _).
Qed.

(** Started on a single path that is not a directory, the program exits
    with status 0 exactly when the suffix is [.sv] or [.v] in any letter
    case, the comparison raises nothing, and at least one of the three
    flows succeeded. *)
Theorem single_file_exit_status i :
  path_exists i = true -> comparator_dirs i = Ok tt ->
  (forall sv_matches v_matches,
     path_kind (input i) <> IsDir sv_matches v_matches) ->
  let f := runs i (path_text (input i)) in
  main i = 0%Z <->
    is_verilog_suffix (path_suffix (input i)) = true
    /\ (exists comparison, run_comparison f = Ok comparison)
    /\ (success (run_circt_synthesis (circt_world f)) = true
        \/ success (run_yosys_synthesis (yosys_world f)) = true
        \/ success (run_hybrid_synthesis (hybrid_world f)) = true).
Proof.
  intros He Hc Hk f. unfold main. rewrite He, Hc. cbn [negb]. fold f.
  assert ((if negb (is_verilog_suffix (path_suffix (input i))) then 1%Z
           else
             match run_comparison f with
             | Ok comparison =>
                 if success (circt comparison) then 0%Z
                 else if success (yosys comparison) then 0%Z
                 else
                   match hybrid comparison with
                   | Some h => if success h then 0%Z else 1%Z
                   | None => 1%Z
                   end
             | Fault _ => 1%Z
             end) = 0%Z <->
          is_verilog_suffix (path_suffix (input i)) = true
          /\ (exists comparison, run_comparison f = Ok comparison)
          /\ (success (run_circt_synthesis (circt_world f)) = true
              \/ success (run_yosys_synthesis (yosys_world f)) = true
              \/ success (run_hybrid_synthesis (hybrid_world f)) = true))
    as Hmain.
  { destruct (is_verilog_suffix _); cbn [negb]; [|split; [done|by intros [? _]]].
    destruct (run_comparison f) as [cmp|e] eqn:E.
    - destruct (run_comparison_flows _ _ E) as (-> & -> & ->).
      destruct (success (run_circt_synthesis _)),
        (success (run_yosys_synthesis _)),
        (success (run_hybrid_synthesis _)); split; try done;
        try (intros _; split; [done|]; split; [by eexists|]; auto; fail).
      intros (_ & _ & [?|[?|?]]); done.
    - split; [done|]. by intros (_ & [? ?] & _). }
  destruct (path_kind (input i)) as [|sv v|] eqn:Ek; [done| |done].
  by destruct (Hk sv v).
Qed.

Lemma single_file_exit_status_witness : main file_invocation = 0%Z.
Proof.
  apply (single_file_exit_status file_invocation); try reflexivity.
  - intros sv v. discriminate.
  - split; [reflexivity|]. split.
    + eexists. vm_compute. reflexivity.
    + left. vm_compute. reflexivity.
Defined.

Lemma yosys_failure_not_ok f :
  success (run_yosys_synthesis (yosys_world f)) = false -> file_ok f = false.
Proof.
  intros Hy. unfold file_ok, outcome, mbind, fallible_bind.
  destruct (make_comparator f) as [[]|]; [|done].
  destruct (run_comparison f) as [cmp|] eqn:E; [|done].
  destruct (run_comparison_flows _ _ E) as (_ & -> & _).
  rewrite Hy. apply andb_false_r.
Qed.

(** The two modes judge a file differently.  When the comparison of a
    file goes through with the CIRCT flow successful and the Yosys flow
    failed, the program started on the file exits with status 0, and the
    program started on a directory that holds just this file exits with
    status 1. *)
Theorem exit_status_depends_on_mode i j file f sv_matches v_matches cmp :
  path_exists i = true -> comparator_dirs i = Ok tt ->
  path_kind (input i) = IsFile ->
  is_verilog_suffix (path_suffix (input i)) = true ->
  path_text (input i) = file -> runs i file = f ->
  path_exists j = true -> comparator_dirs j = Ok tt ->
  path_kind (input j) = IsDir sv_matches v_matches ->
  sort_paths (globbed sv_matches v_matches) = [file] -> runs j file = f ->
  run_comparison f = Ok cmp ->
  success (run_circt_synthesis (circt_world f)) = true ->
  success (run_yosys_synthesis (yosys_world f)) = false ->
  main i = 0%Z /\ main j = 1%Z.
Proof.
  intros Hie Hic Hik His Hit Hir Hje Hjc Hjk Hjs Hjr Hcmp Hc Hy. split.
  - unfold main. rewrite Hie, Hic, Hik, His, Hit, Hir, Hcmp. cbn [negb].
    destruct (run_comparison_flows _ _ Hcmp) as (-> & _). by rewrite Hc.
  - unfold main, find_verilog_files. rewrite Hje, Hjc, Hjk. cbn [negb].
    unfold mbind, fallible_bind. fold (globbed sv_matches v_matches).
    rewrite Hjs. cbn [map]. rewrite Hjr.
    destruct (run_batch_comparison _ _ _) as [b|e] eqn:E; [|done].
    apply batch_returned in E as [_ ->].
    destruct (fold_process_counts [(file, f)]
                (new_batch (path_text (input j)) [(file, f)]))
      as (_ & -> & _).
    cbn [List.filter snd]. rewrite (yosys_failure_not_ok f Hy). reflexivity.
Qed.

Lemma exit_status_depends_on_mode_witness :
  main file_invocation = 0%Z /\ main dir_invocation = 1%Z.
Proof.
  apply (exit_status_depends_on_mode file_invocation dir_invocation
           "bench/top.sv" circt_only_run [("bench/top.sv", true)] []
           (comparison_of (run_circt_synthesis good_world)
              (run_yosys_synthesis (world_of yosys_fails (Ok tt)))
              (Some (run_hybrid_synthesis good_world))));
    vm_compute; reflexivity.
Defined.

Lemma lower_char_cases a :
  (lower_char a = "."%char -> a = "."%char)
  /\ (lower_char a = "s"%char -> a = "s"%char \/ a = "S"%char)
  /\ (lower_char a = "v"%char -> a = "v"%char \/ a = "V"%char).
Proof.
  destruct a as [[] [] [] [] [] [] [] []]; vm_compute;
    repeat split; intros H; try discriminate H; auto.
Qed.

(** The suffix test accepts [.sv] and [.v] in any letter case, and
    nothing else. *)
Theorem verilog_suffixes suffix :
  is_verilog_suffix suffix = true <->
  suffix ∈ [".sv"; ".sV"; ".Sv"; ".SV"; ".v"; ".V"].
Proof.
  split.
  - unfold is_verilog_suffix. intros H. apply orb_true_iff in H as [H|H];
      apply String.eqb_eq in H.
    + destruct suffix as [|a [|b [|c [|? ?]]]]; try discriminate H.
      cbn [lower] in H. injection H as Ha Hb Hc.
      apply lower_char_cases in Ha as ->.
      apply lower_char_cases in Hb as [-> | ->];
        apply lower_char_cases in Hc as [-> | ->];
        repeat (first [left; done | right]).
    + destruct suffix as [|a [|b [|? ?]]]; try discriminate H.
      cbn [lower] in H. injection H as Ha Hb.
      apply lower_char_cases in Ha as ->.
      apply lower_char_cases in Hb as [-> | ->];
        repeat (first [left; done | right]).
  - intros H. repeat (apply elem_of_cons in H as [->|H]; [reflexivity|]).
    by apply elem_of_nil in H.
Qed.
